(** * Kana Insights: the CSV ingestion, classification and persistence pipeline

    A shallow embedding of the server's upload handler, its batch classifier
    and its read-side queries, with the properties the specification states
    about them.

    Conventions of the embedding.
    - A JavaScript string is a [string]: a sequence of code points below 256.
      [trim] and [toLowerCase] are the JavaScript functions on that range.
      SQLite compares TEXT bytewise on the UTF-8 encoding, which orders such
      strings like the code-point order used here.
    - A JavaScript number is a binary64 [float].
    - The external model, the clock and the storage engine are inputs: the
      model as a function from the index of a call to its outcome, the clock
      as the text [toISOString] returns, the engine as the predicate telling
      which rows it accepts.
    - Asynchronous code is sequential here: every [await] of the handler is
      a step of a state monad over the log of external events. *)

From Stdlib Require Import List String Ascii Bool Arith ZArith Lia.
From Stdlib Require Import Floats Permutation Sorted DecimalString DecimalNat.
From Equations Require Import Equations.
Import ListNotations.

Set Warnings "-register-all".

Open Scope string_scope.
Open Scope list_scope.
Open Scope nat_scope.

(* ===================================================================== *)
(** ** JavaScript strings *)
(* ===================================================================== *)

Module JsString.

Definition code (c : ascii) : nat := nat_of_ascii c.

(** WhiteSpace and LineTerminator code points below 256:
    TAB, LF, VT, FF, CR, SP and NBSP. *)
Definition is_space (c : ascii) : bool :=
  let n := code c in
  (n =? 9) || (n =? 10) || (n =? 11) || (n =? 12) || (n =? 13)
  || (n =? 32) || (n =? 160).

Fixpoint trimStart (s : string) : string :=
  match s with
  | String c rest => if is_space c then trimStart rest else s
  | EmptyString => EmptyString
  end.

(** [trimEnd] keeps a character when it is not a space or when something
    that is kept follows it. *)
Fixpoint trimEnd (s : string) : string :=
  match s with
  | String c rest =>
      match trimEnd rest with
      | EmptyString => if is_space c then EmptyString else String c EmptyString
      | kept => String c kept
      end
  | EmptyString => EmptyString
  end.

Definition trim (s : string) : string := trimEnd (trimStart s).

(** Truthiness of a string: every string but the empty one. *)
Definition truthy (s : string) : bool :=
  match s with EmptyString => false | _ => true end.

(** [toLowerCase] on code points below 256: A-Z, and the Latin-1 capitals
    U+00C0..U+00DE without the multiplication sign U+00D7. *)
Definition lower_char (c : ascii) : ascii :=
  let n := code c in
  if ((65 <=? n) && (n <=? 90))
     || ((192 <=? n) && (n <=? 222) && negb (n =? 215))
  then ascii_of_nat (n + 32) else c.

Fixpoint toLowerCase (s : string) : string :=
  match s with
  | String c rest => String (lower_char c) (toLowerCase rest)
  | EmptyString => EmptyString
  end.

(** [s.split(sep)[0]] for a one-character separator: the text before the
    first occurrence of [sep], all of [s] when there is none. *)
Fixpoint before (sep : ascii) (s : string) : string :=
  match s with
  | String c rest => if Ascii.eqb c sep then EmptyString else String c (before sep rest)
  | EmptyString => EmptyString
  end.

(** [s.substring(0, n)]. *)
Fixpoint prefix (n : nat) (s : string) : string :=
  match n, s with
  | S k, String c rest => String c (prefix k rest)
  | _, _ => EmptyString
  end.

Definition is_digit (c : ascii) : bool :=
  let n := code c in (48 <=? n) && (n <=? 57).

(** [Array.prototype.includes] on an array of strings. *)
Definition includes (xs : list string) (s : string) : bool :=
  existsb (String.eqb s) xs.

(** The decimal text of a natural number, as a template literal prints it. *)
Definition of_nat (n : nat) : string :=
  NilEmpty.string_of_uint (Nat.to_uint n).

End JsString.

(* ===================================================================== *)
(** ** Values produced by [JSON.parse] *)
(* ===================================================================== *)

Inductive json : Type :=
| JNull
| JBool (b : bool)
| JNum (x : float)
| JStr (s : string)
| JArr (items : list json)
| JObj (fields : list (string * json)).

(** Own property of an object, by name. *)
Fixpoint lookup (k : string) (fields : list (string * json)) : option json :=
  match fields with
  | (k', v) :: rest => if String.eqb k k' then Some v else lookup k rest
  | [] => None
  end.

(** [v.k] for a parsed value [v] and one of the names the classifier reads
    (mentionId, sentiment, score, entity): [None] is [undefined]. Numbers,
    booleans, strings and arrays have no such member; reading a member of
    [null] throws and is handled where it happens. *)
Definition prop (v : json) (k : string) : option json :=
  match v with
  | JObj fields => lookup k fields
  | _ => None
  end.

(* ===================================================================== *)
(** ** The data model of the server *)
(* ===================================================================== *)

(** A member of [req.query]: absent, a string, or (a repeated or bracketed
    parameter) an array or an object. *)
Inductive qvalue : Type :=
| QUndefined
| QString (s : string)
| QArray (items : list string)
| QObject (fields : list (string * string)).

(** [source] is declared a string and holds what [req.query.platform] held,
    which the handler does not check. *)
Record Mention : Type := mkMention {
  id : string;
  source : qvalue;
  content : string;
  date : string
}.

Inductive Sentiment : Type := positive | neutral | negative.

Record SentimentAnalysis : Type := mkAnalysis {
  mentionId : string;
  sentiment : Sentiment;
  score : float;
  entity : string
}.

Definition sentiment_text (s : Sentiment) : string :=
  match s with
  | positive => "positive"
  | neutral => "neutral"
  | negative => "negative"
  end.

(** [normalizeSentiment(value)]. *)
Definition normalizeSentiment (value : option json) : Sentiment :=
  match value with
  | Some (JStr s) =>
      if String.eqb s "positive" then positive
      else if String.eqb s "negative" then negative
      else neutral
  | _ => neutral
  end.

(** The entity taxonomy the prompt asks the model to use. *)
Definition taxonomy : list string :=
  ["Quality"; "Service"; "Price"; "Ambiance"; "Location"; "General"].

(** The result the classifier substitutes for a review it has no answer for. *)
Definition default_result (m : Mention) : SentimentAnalysis :=
  mkAnalysis (id m) neutral 0.5%float "General".

(** The result for a review when no API key is configured. *)
Definition nokey_result (m : Mention) : SentimentAnalysis :=
  mkAnalysis (id m) neutral 0%float "General".

(* ===================================================================== *)
(** ** External events and the tasks that produce them *)
(* ===================================================================== *)

(** What the handler does to the outside world, in the order it does it:
    a request to the model for a batch (named by the ids of its reviews)
    and a pause of a number of milliseconds. *)
Inductive event : Type :=
| Generate (ids : list string)
| Sleep (ms : Z).

(** What one request to the model comes to. [Throws status] is a rejected
    [generateContent] (or a throwing [response.text()]) whose error has
    [status] as its [status] member, [None] when it has none or one that is
    not a number. [Responds parsed] is a text answer, with the value
    [JSON.parse] gives for the text without its code fences, [None] when
    [JSON.parse] throws. *)
Inductive outcome : Type :=
| Throws (status : option Z)
| Responds (parsed : option json).

(** A task runs on the log of the events so far and extends it. *)
Definition Task (A : Type) : Type := list event -> A * list event.

Definition ret {A} (a : A) : Task A := fun log => (a, log).

Definition bind {A B} (t : Task A) (k : A -> Task B) : Task B :=
  fun log => let (a, log') := t log in k a log'.

Notation "x <- t ;; k" := (bind t (fun x => k))
  (at level 61, t at next level, right associativity).

Definition is_generate (e : event) : bool :=
  match e with Generate _ => true | Sleep _ => false end.

(** The number of requests made to the model so far. *)
Definition calls (log : list event) : nat :=
  List.length (filter is_generate log).

(** The pauses taken so far, oldest first. *)
Fixpoint sleeps (log : list event) : list Z :=
  match log with
  | Sleep ms :: rest => ms :: sleeps rest
  | Generate _ :: rest => sleeps rest
  | [] => []
  end.

(** [await sleep(ms)]. *)
Definition sleep (ms : Z) : Task unit :=
  fun log => (tt, log ++ [Sleep ms]).

(* ===================================================================== *)
(** ** The classifier: [analyzeBatch] *)
(* ===================================================================== *)

(** What [parsed.find(p => p.mentionId === mention.id)] comes to. *)
Inductive found : Type :=
| TypeError            (* the callback read a member of null *)
| NotFound             (* undefined *)
| Found (p : json).

Fixpoint find_mention (mid : string) (parsed : list json) : found :=
  match parsed with
  | [] => NotFound
  | JNull :: _ => TypeError
  | p :: rest =>
      match prop p "mentionId" with
      | Some (JStr s) => if String.eqb s mid then Found p else find_mention mid rest
      | _ => find_mention mid rest
      end
  end.

(** [found.mentionId || mention.id], for an element [find] returned: its
    [mentionId] is a string. *)
Definition mentionId_or (v : option json) (fallback : string) : string :=
  match v with
  | Some (JStr s) => if JsString.truthy s then s else fallback
  | _ => fallback
  end.

(** [typeof found.score === 'number' ? found.score : 0.5]. *)
Definition score_or_default (v : option json) : float :=
  match v with
  | Some (JNum x) => x
  | _ => 0.5%float
  end.

(** [typeof found.entity === 'string' && found.entity.trim() ? found.entity
    : 'General']. *)
Definition entity_or_default (v : option json) : string :=
  match v with
  | Some (JStr s) => if JsString.truthy (JsString.trim s) then s else "General"
  | _ => "General"
  end.

(** The callback of [mentions.map] that reconciles one review with the
    parsed answer; [None] when it throws. *)
Definition reconcile_one (parsed : list json) (mention : Mention)
  : option SentimentAnalysis :=
  match find_mention (id mention) parsed with
  | TypeError => None
  | NotFound => Some (default_result mention)
  | Found p =>
      Some (mkAnalysis
              (mentionId_or (prop p "mentionId") (id mention))
              (normalizeSentiment (prop p "sentiment"))
              (score_or_default (prop p "score"))
              (entity_or_default (prop p "entity")))
  end.

(** [xs.map(f)] for a callback that may throw: the first throw ends it. *)
Fixpoint map_or_throw {A B} (f : A -> option B) (xs : list A) : option (list B) :=
  match xs with
  | [] => Some []
  | x :: rest =>
      match f x with
      | None => None
      | Some y =>
          match map_or_throw f rest with
          | None => None
          | Some ys => Some (y :: ys)
          end
      end
  end.

(** [error?.status === 429]. *)
Definition is_rate_limit (status : option Z) : bool :=
  match status with
  | Some n => Z.eqb n 429
  | None => false
  end.

(** [Math.pow(2, retryCount) * 15000]. *)
Definition waitTime (retryCount : nat) : Z :=
  (2 ^ Z.of_nat retryCount * 15000)%Z.

Section Classifier.

(** [process.env.GEMINI_API_KEY], and the model behind [generateContent]:
    the outcome of its n-th request, counted from 0 over the whole run. *)
Variable apiKey : option string.
Variable llm : nat -> outcome.

(** [!apiKey] is false. *)
Definition has_key : bool :=
  match apiKey with
  | Some k => JsString.truthy k
  | None => false
  end.

(** [await model.generateContent(prompt)] with what follows it up to the
    parsed value. *)
Definition generateContent (batch : list Mention) : Task outcome :=
  fun log => (llm (calls log), log ++ [Generate (map id batch)]).

(** The body of the [try] once the model answered. *)
Definition merge_response (mentions : list Mention) (parsed : option json)
  : list SentimentAnalysis :=
  match parsed with
  | Some (JArr items) =>
      match map_or_throw (reconcile_one items) mentions with
      | Some results => results
      | None => map default_result mentions   (* outer catch, no status *)
      end
  | _ => map default_result mentions          (* inner catch *)
  end.

Equations analyzeBatch (mentions : list Mention) (retryCount : nat)
  (log : list event) : list SentimentAnalysis * list event
  by wf (3 - retryCount) lt :=
analyzeBatch mentions retryCount log with has_key := {
  | false => (map nokey_result mentions, log)
  | true with generateContent mentions log := {
    | (Responds parsed, log1) => (merge_response mentions parsed, log1)
    | (Throws status, log1) with is_rate_limit status, lt_dec retryCount 3 := {
      | true, left _ =>
          analyzeBatch mentions (S retryCount) (snd (sleep (waitTime retryCount) log1))
      | _, _ => (map default_result mentions, log1) } } }.
Next Obligation.
  clear analyzeBatch.
  do 3 (destruct retryCount as [|retryCount]; [lia|]). lia.
Qed.

End Classifier.

(* ===================================================================== *)
(** ** The row normalizer: [parser.on('data')] *)
(* ===================================================================== *)

(** A parsed CSV row: the header names with the row's values, in the order
    [Object.keys] lists them. *)
Definition RawRow : Type := list (string * string).

(** [row[k]], [None] for undefined. *)
Fixpoint field (k : string) (row : RawRow) : option string :=
  match row with
  | (k', v) :: rest => if String.eqb k k' then Some v else field k rest
  | [] => None
  end.

(** [a || b] where [a] is a string or undefined. *)
Definition or_else (a : option string) (b : string) : string :=
  match a with
  | Some v => if JsString.truthy v then v else b
  | None => b
  end.

Definition dateKeys : list string :=
  ["date"; "publish_date"; "created_at"; "timestamp"; "published_at";
   "time"; "created"; "published"; "tanggal"; "waktu"].

Definition is_date_key (k : string) : bool :=
  JsString.includes dateKeys (JsString.trim (JsString.toLowerCase k)).

(** [/^\d{4}-\d{2}-\d{2}/] matches. *)
Definition matches_ymd (s : string) : bool :=
  match s with
  | String y1 (String y2 (String y3 (String y4 (String h1
      (String m1 (String m2 (String h2 (String d1 (String d2 _))))))))) =>
      JsString.is_digit y1 && JsString.is_digit y2 && JsString.is_digit y3
      && JsString.is_digit y4 && Ascii.eqb h1 "-"
      && JsString.is_digit m1 && JsString.is_digit m2 && Ascii.eqb h2 "-"
      && JsString.is_digit d1 && JsString.is_digit d2
  | _ => false
  end.

(** From [rawDate] to [normalizedDate]. *)
Definition normalizeDate (rawDate : string) : string :=
  let normalizedDate := JsString.before " " (JsString.before "T" rawDate) in
  if matches_ymd normalizedDate then JsString.prefix 10 normalizedDate
  else normalizedDate.

(** [foundDateKey ? row[foundDateKey] : new Date().toISOString()], as a
    string; [nowISO] is what [toISOString] returns at that moment. *)
Definition rawDate (nowISO : string) (row : RawRow) : string :=
  match find is_date_key (map fst row) with
  | Some foundDateKey =>
      if JsString.truthy foundDateKey then
        match field foundDateKey row with
        | Some v => v
        | None => "undefined"
        end
      else nowISO
  | None => nowISO
  end.

Definition row_content (row : RawRow) : string :=
  or_else (field "content" row)
    (or_else (field "text" row)
       (or_else (field "Review" row)
          (or_else (field "comment" row)
             (or_else (field "caption" row) "")))).

(** [(req.query.platform as string) || 'CSV']. *)
Definition platform_of (q : qvalue) : qvalue :=
  match q with
  | QUndefined => QString "CSV"
  | QString s => if JsString.truthy s then QString s else QString "CSV"
  | other => other
  end.

Definition row_id (rowCount : nat) : string :=
  String.append "csv-row-" (JsString.of_nat rowCount).

(** The record the handler builds for a row, [None] when the row has no
    content and is dropped. [rowCount] is the counter after its increment. *)
Definition normalize_row (platform : qvalue) (nowISO : string) (rowCount : nat)
  (row : RawRow) : option Mention :=
  let content := row_content row in
  if JsString.truthy content then
    Some (mkMention (row_id rowCount) platform content
            (normalizeDate (rawDate nowISO row)))
  else None.

Section Ingest.

Variable platform : qvalue.
(** The clock: the text of [new Date().toISOString()] while the n-th row
    (from 1) is handled. *)
Variable clock : nat -> string.

(** One ['data'] event on the state [(rowCount, mentionsToAnalyze)]. *)
Definition on_data (st : nat * list Mention) (row : RawRow) : nat * list Mention :=
  let rowCount := S (fst st) in
  match normalize_row platform (clock rowCount) rowCount row with
  | Some mention => (rowCount, snd st ++ [mention])
  | None => (rowCount, snd st)
  end.

(** [mentionsToAnalyze] when the parser ends. *)
Definition ingest (rows : list RawRow) : list Mention :=
  snd (fold_left on_data rows (0, [])).

End Ingest.

(* ===================================================================== *)
(** ** The durable store *)
(* ===================================================================== *)

(** What the handler binds to one INSERT. *)
Module Item.
Record t : Type := mk {
  platform : qvalue;
  content : string;
  date : string;
  sentiment : string;
  entity : string;
  score : float
}.
End Item.

(** A row of the table [reviews]. *)
Module Review.
Record t : Type := mk {
  id : nat;
  platform : string;
  content : string;
  date : string;
  sentiment : string;
  entity : string;
  score : float;
  uploaded_at : string
}.
End Review.

(** The table with the counter AUTOINCREMENT keeps in [sqlite_sequence]. *)
Record database : Type := mkDb {
  reviews : list Review.t;
  sqlite_sequence : nat
}.

Section Writer.

(** The engine: [fault k] tells that the k-th [insert.run] of a transaction
    (from 0) fails for a reason of the engine's own; [datetime_now] is the
    default of the column [uploaded_at]. The engine reads its clock for
    each insert; here one reading stands for the whole transaction, and no
    property below depends on it. *)
Variable fault : nat -> bool.
Variable datetime_now : string.

(** [insert.run(item)] for the k-th item: [None] when it throws. The driver
    binds numbers, strings, bigints, buffers and null, and throws on any
    other value: of the six members only [platform] can be one. *)
Definition insert_run (k : nat) (item : Item.t) (db : database) : option database :=
  match Item.platform item with
  | QString platform =>
      if fault k then None
      else
        let rowid := S (sqlite_sequence db) in
        Some (mkDb (reviews db ++
                      [Review.mk rowid platform (Item.content item)
                         (Item.date item) (Item.sentiment item)
                         (Item.entity item) (Item.score item) datetime_now])
                   rowid)
  | _ => None
  end.

(** The loop of the transaction, from its k-th item on: a throwing insert
    is caught and the loop goes on. *)
Fixpoint run_inserts (k : nat) (items : list Item.t) (db : database) : database :=
  match items with
  | [] => db
  | item :: rest =>
      match insert_run k item db with
      | Some db' => run_inserts (S k) rest db'
      | None => run_inserts (S k) rest db
      end
  end.

Definition transaction (items : list Item.t) (db : database) : database :=
  run_inserts 0 items db.

End Writer.

(* ===================================================================== *)
(** ** The end of an upload: [parser.on('end')] *)
(* ===================================================================== *)

Record Response : Type := mkResponse {
  status : nat;
  message : string
}.

Definition BATCH_SIZE : nat := 15.

(** [xs.slice(i, j)] for [i <= j]. *)
Definition slice {A} (i j : nat) (xs : list A) : list A :=
  firstn (j - i) (skipn i xs).

(** [x || 0] on numbers: NaN and both zeros are falsy. *)
Definition score_or_zero (x : float) : float :=
  if (PrimFloat.is_nan x || PrimFloat.is_zero x)%bool then 0%float else x.

(** [analyses.find(a => a.mentionId === mention.id)]. *)
Definition find_analysis (analyses : list SentimentAnalysis) (mention : Mention)
  : option SentimentAnalysis :=
  find (fun a => String.eqb (mentionId a) (id mention)) analyses.

(** The callback that builds [reviewsToStore]. *)
Definition to_store (analyses : list SentimentAnalysis) (mention : Mention) : Item.t :=
  let analysis := find_analysis analyses mention in
  Item.mk (source mention) (content mention) (date mention)
    (or_else (option_map (fun a => sentiment_text (sentiment a)) analysis) "neutral")
    (or_else (option_map entity analysis) "General")
    (match analysis with
     | Some a => score_or_zero (score a)
     | None => 0%float
     end).

Definition stored_message (n : nat) : string :=
  String.append "Successfully analyzed and stored "
    (String.append (JsString.of_nat n) " reviews.").

Section Upload.

Variable apiKey : option string.
Variable llm : nat -> outcome.
Variable fault : nat -> bool.
Variable datetime_now : string.

(** The [for] loop over the batches, entered with the index [i] and the
    results gathered so far. *)
Equations classify_from (mentions : list Mention) (i : nat)
  (analyses : list SentimentAnalysis) (log : list event)
  : list SentimentAnalysis * list event
  by wf (List.length mentions - i) lt :=
classify_from mentions i analyses log with lt_dec i (List.length mentions) := {
  | right _ => (analyses, log)
  | left _ =>
      classify_from mentions (i + BATCH_SIZE)
        (analyses ++
           fst (analyzeBatch apiKey llm (slice i (i + BATCH_SIZE) mentions) 0 log))
        (let log1 :=
           snd (analyzeBatch apiKey llm (slice i (i + BATCH_SIZE) mentions) 0 log) in
         if i + BATCH_SIZE <? List.length mentions
         then snd (sleep 12000 log1) else log1) }.
Next Obligation. unfold BATCH_SIZE. lia. Qed.

(** The batcher: the loop from index 0 with no results yet. *)
Definition classify_all (mentions : list Mention) : Task (list SentimentAnalysis) :=
  classify_from mentions 0 [].

(** The handler of ['end'], on the store. *)
Definition on_end (mentionsToAnalyze : list Mention) (db : database)
  : Task (Response * database) :=
  analyses <- classify_all mentionsToAnalyze ;;
  let reviewsToStore := map (to_store analyses) mentionsToAnalyze in
  let db' := transaction fault datetime_now reviewsToStore db in
  ret (mkResponse 200 (stored_message (List.length reviewsToStore)), db').

(** [POST /api/upload-csv] for a stream that parses into [rows]. *)
Definition upload_csv (platform : qvalue) (clock : nat -> string)
  (rows : list RawRow) (db : database) : Task (Response * database) :=
  on_end (ingest (platform_of platform) clock rows) db.

End Upload.

(* ===================================================================== *)
(** ** The read side: [GET /api/data] and [GET /api/trends] *)
(* ===================================================================== *)

(** The WHERE clause of the listing: [Some s] for [WHERE sentiment = s],
    [None] for no clause. [includes] compares with the strings of the array,
    so no value but a string is included. *)
Definition whereClause (sentimentFilter : qvalue) : option string :=
  match sentimentFilter with
  | QString s =>
      if JsString.includes ["positive"; "negative"; "neutral"] s then Some s else None
  | _ => None
  end.

(** ORDER BY date DESC on TEXT: rows taken one by one, each put before the
    first row whose date is not above its own. (The engine leaves the order
    of rows with equal dates open; this one keeps the table's.) *)
Fixpoint insert_desc (r : Review.t) (sorted : list Review.t) : list Review.t :=
  match sorted with
  | [] => [r]
  | x :: rest =>
      if String.leb (Review.date x) (Review.date r) then r :: sorted
      else x :: insert_desc r rest
  end.

Definition order_by_date_desc (rows : list Review.t) : list Review.t :=
  fold_right insert_desc [] rows.

(** The [reviews] member of the answer of [GET /api/data]. *)
Definition list_reviews (sentimentFilter : qvalue) (db : database) : list Review.t :=
  order_by_date_desc
    (match whereClause sentimentFilter with
     | Some s => filter (fun r => String.eqb (Review.sentiment r) s) (reviews db)
     | None => reviews db
     end).

(** A row of the answer of [GET /api/trends]; [month] is [None] for NULL. *)
Module Trend.
Record t : Type := mk {
  month : option string;
  count : nat;
  positive : nat;
  neutral : nat;
  negative : nat
}.
End Trend.

Module Sqlite.

Definition leap (y : nat) : bool :=
  ((y mod 4 =? 0) && negb (y mod 100 =? 0)) || (y mod 400 =? 0).

Definition days_in_month (y m : nat) : nat :=
  match m with
  | 1 | 3 | 5 | 7 | 8 | 10 | 12 => 31
  | 4 | 6 | 9 | 11 => 30
  | 2 => if leap y then 29 else 28
  | _ => 0
  end.

Definition digit (n : nat) : ascii := ascii_of_nat (48 + n mod 10).

Definition two_digits (n : nat) : string :=
  String (digit (n / 10)) (String (digit n) EmptyString).

Definition four_digits (n : nat) : string :=
  String (digit (n / 1000)) (String (digit (n / 100)) (two_digits n)).

(** The text of a date for the format %Y-%m-%d. *)
Definition ymd (y m d : nat) : string :=
  String.append (four_digits y)
    (String "-" (String.append (two_digits m) (String "-" (two_digits d)))).

(** The modifier '-6 months' on the date [y]-[m]-[d], for a year from 1 on:
    the month goes back by six, and a day the month reached does not have
    runs over into the month after it. *)
Definition six_months_before (y m d : nat) : nat * nat * nat :=
  let y1 := if 6 <? m then y else y - 1 in
  let m1 := if 6 <? m then m - 6 else m + 6 in
  if days_in_month y1 m1 <? d
  then (y1, m1 + 1, d - days_in_month y1 m1)
  else (y1, m1, d).

(** [strftime('%Y-%m-%d', 'now', '-6 months')] on the day [today]. *)
Definition cutoff (today : nat * nat * nat) : string :=
  let '(y, m, d) := today in
  let '(y', m', d') := six_months_before y m d in
  ymd y' m' d'.

Definition value (c : ascii) : nat := nat_of_ascii c - 48.

(** The text is a calendar date written YYYY-MM-DD and nothing more. *)
Definition is_calendar_date (s : string) : bool :=
  match s with
  | String y1 (String y2 (String y3 (String y4 (String _
      (String m1 (String m2 (String _ (String d1 (String d2 EmptyString))))))))) =>
      let y := 1000 * value y1 + 100 * value y2 + 10 * value y3 + value y4 in
      let m := 10 * value m1 + value m2 in
      let d := 10 * value d1 + value d2 in
      matches_ymd s && (1 <=? m) && (m <=? 12) && (1 <=? d)
      && (d <=? days_in_month y m)
  | _ => false
  end.

(** NULL sorts first, TEXT by its bytes. *)
Definition compare_month (a b : option string) : comparison :=
  match a, b with
  | None, None => Eq
  | None, Some _ => Lt
  | Some _, None => Gt
  | Some x, Some y => String.compare x y
  end.

End Sqlite.

Section Trends.

(** [strftime('%Y-%m', text)] for a text that is not a calendar date
    written YYYY-MM-DD; the engine reads several other forms, which the
    normalizer does not aim at. For a calendar date it is its first seven
    characters. *)
Variable strftime_other : string -> option string.

(** The day 'now' falls on, as (year, month, day). *)
Variable today : nat * nat * nat.

Definition month_of (date : string) : option string :=
  if Sqlite.is_calendar_date date then Some (JsString.prefix 7 date)
  else strftime_other date.

(** [WHERE date >= strftime('%Y-%m-%d', 'now', '-6 months')]. *)
Definition in_window (r : Review.t) : bool :=
  String.leb (Sqlite.cutoff today) (Review.date r).

(** [SUM(CASE WHEN sentiment = s THEN 1 ELSE 0 END)] over a group. *)
Definition sum_case (s : string) (group : list Review.t) : nat :=
  list_sum (map (fun r => if String.eqb (Review.sentiment r) s then 1 else 0) group).

(** The row of the answer for the group of the month [m]. *)
Definition group_row (rows : list Review.t) (m : option string) : Trend.t :=
  let group :=
    filter (fun r => match Sqlite.compare_month (month_of (Review.date r)) m with
                     | Eq => true
                     | _ => false
                     end) rows in
  Trend.mk m (List.length group)
    (sum_case "positive" group) (sum_case "neutral" group) (sum_case "negative" group).

(** GROUP BY month ORDER BY month: the distinct months, in order. *)
Fixpoint insert_month (m : option string) (months : list (option string))
  : list (option string) :=
  match months with
  | [] => [m]
  | x :: rest =>
      match Sqlite.compare_month m x with
      | Eq => months
      | Lt => m :: months
      | Gt => x :: insert_month m rest
      end
  end.

Definition group_keys (rows : list Review.t) : list (option string) :=
  fold_right insert_month [] (map (fun r => month_of (Review.date r)) rows).

(** The answer of [GET /api/trends]. *)
Definition trends (db : database) : list Trend.t :=
  let window := filter in_window (reviews db) in
  map (group_row window) (group_keys window).

End Trends.

(* ===================================================================== *)
(** ** Vocabulary of the properties *)
(* ===================================================================== *)

(** The column names the specification lists for the content of a row, as
    the normalizer spells them. *)
Definition content_aliases : list string :=
  ["content"; "text"; "Review"; "comment"; "caption"].

(** The first non-empty value among the columns [aliases] of a row, the
    names compared exactly and taken in the order of the list. *)
Fixpoint first_nonempty (aliases : list string) (row : RawRow) : option string :=
  match aliases with
  | [] => None
  | k :: rest =>
      match field k row with
      | Some v => if JsString.truthy v then Some v else first_nonempty rest row
      | None => first_nonempty rest row
      end
  end.

(** The text is ten characters long and reads YYYY-MM-DD. *)
Definition ymd_shaped (d : string) : bool :=
  (String.length d =? 10) && matches_ymd d.

(** [sep] occurs in the text. *)
Fixpoint has_char (sep : ascii) (s : string) : bool :=
  match s with
  | String c rest => Ascii.eqb c sep || has_char sep rest
  | EmptyString => false
  end.

(** [Math.ceil(n / BATCH_SIZE)], the number of batches the handler logs. *)
Definition totalBatches (n : nat) : nat :=
  (n + (BATCH_SIZE - 1)) / BATCH_SIZE.

(** The batches of an upload: the slices of [BATCH_SIZE] reviews, by their
    number from 0. *)
Definition batches {A} (xs : list A) : list (list A) :=
  map (fun k => slice (k * BATCH_SIZE) (k * BATCH_SIZE + BATCH_SIZE) xs)
    (seq 0 (totalBatches (List.length xs))).

(** The batches handed to the classifier one after the other, with a pause
    of 12 seconds between two of them; the results are kept by batch. *)
Fixpoint dispatch (apiKey : option string) (llm : nat -> outcome)
  (bs : list (list Mention)) (log : list event)
  : list (list SentimentAnalysis) * list event :=
  match bs with
  | [] => ([], log)
  | b :: rest =>
      let res := analyzeBatch apiKey llm b 0 log in
      let log' :=
        match rest with
        | [] => snd res
        | _ :: _ => snd res ++ [Sleep 12000]
        end in
      let out := dispatch apiKey llm rest log' in
      (fst res :: fst out, snd out)
  end.

(** The item a stored row was inserted from. *)
Definition item_of_row (r : Review.t) : Item.t :=
  Item.mk (QString (Review.platform r)) (Review.content r) (Review.date r)
    (Review.sentiment r) (Review.entity r) (Review.score r).

(** The items of a transaction whose insert succeeds, the first of them
    being the [k]-th of the transaction. *)
Fixpoint accepted (fault : nat -> bool) (k : nat) (items : list Item.t) : list Item.t :=
  match items with
  | [] => []
  | item :: rest =>
      match Item.platform item with
      | QString _ =>
          if fault k then accepted fault (S k) rest
          else item :: accepted fault (S k) rest
      | _ => accepted fault (S k) rest
      end
  end.

(** [a] may stand before [b] in a listing by date, latest first. *)
Definition date_desc (a b : Review.t) : Prop :=
  String.leb (Review.date b) (Review.date a) = true.

(** The month [a] stands before the month [b] in the engine's order. *)
Definition month_lt (a b : option string) : Prop :=
  Sqlite.compare_month a b = Lt.

Definition month_eq_dec (a b : option string) : {a = b} + {a <> b}.
Proof. decide equality. apply string_dec. Defined.

(** A state of the parser's handlers: the ids gathered so far are those of some of the rows counted so far,
    each at most once. *)
Definition numbered (st : nat * list Mention) : Prop :=
  exists ks, map id (snd st) = map row_id ks
             /\ NoDup ks /\ Forall (fun k => k <= fst st) ks.

(** The closed interval the prompt asks scores to lie in. *)
Definition in_unit_interval (x : float) : bool :=
  (PrimFloat.leb 0 x && PrimFloat.leb x 1)%bool.

(** The request failed with the rate-limit signal. *)
Definition is_rate_limited (o : outcome) : bool :=
  match o with
  | Throws status => is_rate_limit status
  | Responds _ => false
  end.

(** The element of the model's last answer that stands for the review [mid]:
    the first one of the array whose [mentionId] is [mid]. *)
Definition answered_by (llm : nat -> outcome) (log : list event)
  (mid : string) (p : json) : Prop :=
  exists items,
    llm (pred (calls log)) = Responds (Some (JArr items))
    /\ find_mention mid items = Found p.

(** The events of a request for [ids] that is repeated [retries] times, the
    first of them at the retry count [retryCount]. *)
Fixpoint attempts (ids : list string) (retryCount retries : nat) : list event :=
  match retries with
  | 0 => [Generate ids]
  | S n => Generate ids :: Sleep (waitTime retryCount) :: attempts ids (S retryCount) n
  end.

(** How many requests in a row, from the [k]-th on and at most [budget],
    fail with the rate-limit signal. *)
Fixpoint leading_rate_limits (llm : nat -> outcome) (k budget : nat) : nat :=
  match budget with
  | 0 => 0
  | S b =>
      if is_rate_limited (llm k) then S (leading_rate_limits llm (S k) b) else 0
  end.

(** 15, 30 and 60 seconds, in milliseconds. *)
Definition backoff : list Z := [15000; 30000; 60000]%Z.

(** The events of the requests for one batch: for each of the [waits] a
    request for [ids] and a pause of that length, and then a last request
    for [ids]. *)
Fixpoint retry_events (ids : list string) (waits : list Z) : list event :=
  match waits with
  | [] => [Generate ids]
  | wait :: rest => Generate ids :: Sleep wait :: retry_events ids rest
  end.

(* ===================================================================== *)
(** ** The text of the model's answer *)
(* ===================================================================== *)

(** What is left of [s] after [pat] at its start, [None] when [s] does not
    start with [pat]. *)
Fixpoint strip_prefix (pat s : string) : option string :=
  match pat, s with
  | EmptyString, _ => Some s
  | String p pat', String c s' => if Ascii.eqb p c then strip_prefix pat' s' else None
  | String _ _, EmptyString => None
  end.

(** [s.replace(re, "")] for a global [re]: [matcher] tells what is left of
    a text after a match of [re] at its start. The text is read from the
    left; a match is dropped and the reading goes on behind it. *)
Equations replace_global (matcher : string -> option string) (s : string)
  : string by wf (String.length s) lt :=
replace_global matcher EmptyString := EmptyString;
replace_global matcher (String c s') with matcher (String c s') := {
  | Some rest with lt_dec (String.length rest) (S (String.length s')) := {
    | left _ => replace_global matcher rest
    | right _ => String c (replace_global matcher s') }
  | None => String c (replace_global matcher s') }.

(** An optional line feed at the start: [\n?]. *)
Definition skip_newline (s : string) : string :=
  match s with
  | String c rest => if Ascii.eqb c "010" then rest else s
  | EmptyString => s
  end.

(** A match of [/```json\n?|```\n?/] at the start of [s]. *)
Definition fence_match (s : string) : option string :=
  match strip_prefix "```" s with
  | Some rest =>
      match strip_prefix "json" rest with
      | Some rest' => Some (skip_newline rest')
      | None => Some (skip_newline rest)
      end
  | None => None
  end.

(** [text.replace(/```json\n?|```\n?/g, '').trim()], the [cleanText] of
    [analyzeBatch]. *)
Definition cleanText (text : string) : string :=
  JsString.trim (replace_global fence_match text).

(** [text.replace(/```json/g, "").replace(/```/g, "").trim()], the
    [cleaned] of [safeJSONParse]. *)
Definition cleaned (text : string) : string :=
  JsString.trim
    (replace_global (strip_prefix "```")
       (replace_global (strip_prefix "```json") text)).

Section Parse.

(** [JSON.parse], [None] when it throws. *)
Variable JSON_parse : string -> option json.

(** [safeJSONParse(text, fallback)]. *)
Definition safeJSONParse (text : string) (fallback : json) : json :=
  if JsString.truthy (JsString.trim text) then
    match JSON_parse (cleaned text) with
    | Some value => value
    | None => fallback
    end
  else fallback.

(** What a text answer of the model comes to in [analyzeBatch]. *)
Definition responds (text : string) : outcome :=
  Responds (JSON_parse (cleanText text)).

End Parse.

(* ===================================================================== *)
(** ** The client's URL builder: [buildApiUrl] *)
(* ===================================================================== *)

(** [s.replace(/\/+$/, '')]: the slashes at the end are dropped. A
    character is kept when it is no slash or when something kept follows. *)
Fixpoint strip_trailing_slashes (s : string) : string :=
  match s with
  | String c rest =>
      match strip_trailing_slashes rest with
      | EmptyString => if Ascii.eqb c "/" then EmptyString else String c EmptyString
      | kept => String c kept
      end
  | EmptyString => EmptyString
  end.

(** [normalizedApiBaseUrl] for the value of VITE_API_BASE_URL. *)
Definition normalizedApiBaseUrl (rawApiBaseUrl : option string) : string :=
  match rawApiBaseUrl with
  | Some raw =>
      if JsString.truthy (JsString.trim raw)
      then strip_trailing_slashes (JsString.trim raw)
      else ""
  | None => ""
  end.

(** [path.startsWith('/')]. *)
Definition starts_with_slash (path : string) : bool :=
  match path with
  | String c _ => Ascii.eqb c "/"
  | EmptyString => false
  end.

(** [buildApiUrl(path)], [None] when it throws. *)
Definition buildApiUrl (rawApiBaseUrl : option string) (path : string)
  : option string :=
  if starts_with_slash path then
    let base := normalizedApiBaseUrl rawApiBaseUrl in
    Some (if JsString.truthy base then String.append base path else path)
  else None.

(* ===================================================================== *)
(** ** The read side, continued: topics, summary, and the clearing *)
(* ===================================================================== *)

(** A row of the answer of [GET /api/topics]. *)
Module Topic.
Record t : Type := mk {
  entity : string;
  total : nat;
  positive : nat;
  neutral : nat;
  negative : nat
}.
End Topic.

(** [SUM(CASE WHEN sentiment = s THEN 1 ELSE 0 END)] over a group. *)
Definition sum_when (s : string) (group : list Review.t) : nat :=
  list_sum (map (fun r => if String.eqb (Review.sentiment r) s then 1 else 0) group).

(** The row of the answer for the group of the entity [e]. *)
Definition topic_row (rows : list Review.t) (e : string) : Topic.t :=
  let group := filter (fun r => String.eqb (Review.entity r) e) rows in
  Topic.mk e (List.length group)
    (sum_when "positive" group) (sum_when "neutral" group) (sum_when "negative" group).

(** ORDER BY total DESC: rows taken one by one, each put before the first
    row whose total is not above its own. (The engine leaves the order of
    rows with equal totals open.) *)
Fixpoint insert_by_total (t : Topic.t) (sorted : list Topic.t) : list Topic.t :=
  match sorted with
  | [] => [t]
  | x :: rest =>
      if Topic.total x <=? Topic.total t then t :: sorted
      else x :: insert_by_total t rest
  end.

Definition order_by_total_desc (rows : list Topic.t) : list Topic.t :=
  fold_right insert_by_total [] rows.

(** GROUP BY entity: one row for each entity of the table. *)
Definition topic_groups (rows : list Review.t) : list Topic.t :=
  map (topic_row rows) (nodup string_dec (map Review.entity rows)).

(** The answer of [GET /api/topics]: ... ORDER BY total DESC LIMIT 5. *)
Definition topics (db : database) : list Topic.t :=
  firstn 5 (order_by_total_desc (topic_groups (reviews db))).

(** The [summary] member of the answer of [GET /api/data]. *)
Module Summary.
Record t : Type := mk {
  total_positive : nat;
  total_negative : nat;
  total_neutral : nat;
  last_updated : option string
}.
End Summary.

(** [(SELECT COUNT( * ) FROM reviews WHERE sentiment = s)]. *)
Definition count_sentiment (s : string) (db : database) : nat :=
  List.length (filter (fun r => String.eqb (Review.sentiment r) s) (reviews db)).

(** [MAX(uploaded_at)] on TEXT, for a table with rows. *)
Definition max_text (a b : string) : string :=
  if String.leb a b then b else a.

Section Summary.

(** [strftime('%Y-%m-%dT%H:%M:%SZ', text)], the engine's. *)
Variable strftime_iso : string -> option string.

Definition summary (db : database) : Summary.t :=
  Summary.mk
    (count_sentiment "positive" db)
    (count_sentiment "negative" db)
    (count_sentiment "neutral" db)
    (match reviews db with
     | [] => None
     | r :: rest =>
         strftime_iso
           (fold_left max_text (map Review.uploaded_at rest) (Review.uploaded_at r))
     end).

End Summary.

(** [DELETE /api/data]: every row goes, and the row of the table in
    [sqlite_sequence] with them. *)
Definition clear_data (db : database) : database := mkDb [] 0.

(* ===================================================================== *)
(** ** Vocabulary of the further properties *)
(* ===================================================================== *)

(** [s.startsWith(pat)]. *)
Definition starts_with (pat s : string) : bool :=
  match strip_prefix pat s with
  | Some _ => true
  | None => false
  end.

(** The text holds a Markdown code fence, three backticks in a row. *)
Fixpoint has_fence (s : string) : bool :=
  match s with
  | String c rest => starts_with "```" s || has_fence rest
  | EmptyString => false
  end.

(** A matcher that matches at the code fences and nowhere else, and takes
    something away when it matches. *)
Definition matches_fences (matcher : string -> option string) : Prop :=
  (forall s rest, matcher s = Some rest ->
     starts_with "```" s = true /\ String.length rest < String.length s)
  /\ (forall s, starts_with "```" s = true -> matcher s <> None).

(** The last character of the text is a slash. *)
Fixpoint ends_with_slash (s : string) : bool :=
  match s with
  | EmptyString => false
  | String c EmptyString => Ascii.eqb c "/"
  | String _ rest => ends_with_slash rest
  end.

(** What the handler of ['data'] adds for the [k]-th row: the record of the
    row, or nothing for a row with no content. *)
Definition kept_row (platform : qvalue) (clock : nat -> string)
  (numbered_row : nat * RawRow) : list Mention :=
  match normalize_row platform (clock (fst numbered_row)) (fst numbered_row)
          (snd numbered_row) with
  | Some mention => [mention]
  | None => []
  end.

(** The events keep the pace: no request to the model follows another one
    directly, and every pause lasts 12 seconds at least. [after_request]
    tells whether the event before the first one was a request. *)
Fixpoint paced (after_request : bool) (events : list event) : bool :=
  match events with
  | [] => true
  | Generate _ :: rest => negb after_request && paced true rest
  | Sleep ms :: rest => (12000 <=? ms)%Z && paced false rest
  end.

(** The events of the batches put one after the other, with a pause of 12
    seconds between the events of two batches. *)
Fixpoint join_runs (runs : list (list event)) : list event :=
  match runs with
  | [] => []
  | run :: rest =>
      run ++ match rest with
             | [] => []
             | _ :: _ => Sleep 12000 :: join_runs rest
             end
  end.

(** Whether the last of the events is a request; [after_request] when there
    is none. *)
Fixpoint ends_with_request (after_request : bool) (events : list event) : bool :=
  match events with
  | [] => after_request
  | Generate _ :: rest => ends_with_request true rest
  | Sleep _ :: rest => ends_with_request false rest
  end.

(** The request gave nothing [analyzeBatch] can merge: it threw, or its
    text did not parse to an array. *)
Definition unusable (o : outcome) : bool :=
  match o with
  | Responds (Some (JArr _)) => false
  | _ => true
  end.

(** The item stored for a review with the classifier's result for it. *)
Definition item_of (m : Mention) (a : SentimentAnalysis) : Item.t :=
  Item.mk (source m) (content m) (date m)
    (sentiment_text (sentiment a))
    (or_else (Some (entity a)) "General")
    (score_or_zero (score a)).

(** The item stored for a review with given sentiment fields. *)
Definition item_with (sentiment entity : string) (score : float) (m : Mention)
  : Item.t :=
  Item.mk (source m) (content m) (date m) sentiment entity score.

(** The ids of the table are distinct and none is above the counter of
    AUTOINCREMENT, as the engine keeps them. *)
Definition well_numbered (db : database) : Prop :=
  NoDup (map Review.id (reviews db))
  /\ Forall (fun r => Review.id r <= sqlite_sequence db) (reviews db).

(** The three sentiments. *)
Definition sentiment_names : list string := ["positive"; "neutral"; "negative"].

(** Every row of the table has one of the three sentiments and an entity
    that is not empty. *)
Definition closed_rows (db : database) : Prop :=
  Forall (fun r => In (Review.sentiment r) sentiment_names /\ Review.entity r <> "")
    (reviews db).

(** The query parameter [platform] is absent or a string. *)
Definition plain_platform (platform : qvalue) : bool :=
  match platform with
  | QUndefined | QString _ => true
  | QArray _ | QObject _ => false
  end.

(** [a] may stand before [b] in a listing by total, largest first. *)
Definition total_desc (a b : Topic.t) : Prop := Topic.total b <= Topic.total a.

(* ===================================================================== *)
(** ** Sample inputs *)
(* ===================================================================== *)

Module Sample.

Definition review (n : nat) (text : string) : Mention :=
  mkMention (row_id n) (QString "Google Review") text "2025-09-15".

Definition batch : list Mention :=
  [review 1 "enak banget, mantap!"; review 2 "lelet banget pelayanannya"].

Definition answer (mid : string) (score : json) (entity : json) : json :=
  JObj [("mentionId", JStr mid); ("sentiment", JStr "positive");
        ("score", score); ("entity", entity)].

(** An answer that repeats the first review, leaves the second out and
    names a review that was never sent. *)
Definition careless : nat -> outcome :=
  fun _ => Responds (Some (JArr [answer "csv-row-1" (JNum 0.75) (JStr "Quality");
                                 answer "csv-row-1" (JNum 0.125) (JStr "Price");
                                 answer "csv-row-9" (JNum 0.875) (JStr "Service")])).

(** An answer with a score and an entity outside the ranges asked for. *)
Definition off_range : nat -> outcome :=
  fun _ => Responds (Some (JArr [answer "csv-row-1" (JNum 7) (JStr "Food")])).

Definition single : list Mention := [review 1 "enak banget, mantap!"].

(** What [analyzeBatch] makes of [off_range] for [single]. *)
Definition off_result : SentimentAnalysis :=
  mkAnalysis "csv-row-1" positive 7 "Food".

Definition clock : nat -> string := fun _ => "2025-09-20T08:00:00.000Z".

Definition rows : list RawRow :=
  [[("content", "enak banget, mantap!"); ("date", "2025-09-15")];
   [("content", "lelet banget pelayanannya"); ("date", "2025-09-16")];
   [("content", "oke standar aja"); ("date", "2025-09-17")]].

Definition empty_db : database := mkDb [] 0.

(** An engine that works, and one whose second insert fails. *)
Definition healthy : nat -> bool := fun _ => false.
Definition second_fails : nat -> bool := fun k => k =? 1.

(** [?platform=Google+Review&platform=TikTok]: a repeated parameter. *)
Definition repeated_platform : qvalue := QArray ["Google Review"; "TikTok"].

Definition stored (n : nat) (date sentiment : string) : Review.t :=
  Review.mk n "Google Review" "kopi" date sentiment "General" 0.5
    "2025-09-15 08:00:00".

(** Reviews of eight months in a row, February to September 2025. *)
Definition eight_months : database :=
  mkDb [stored 1 "2025-02-20" "positive"; stored 2 "2025-03-20" "neutral";
        stored 3 "2025-04-20" "negative"; stored 4 "2025-05-20" "positive";
        stored 5 "2025-06-20" "positive"; stored 6 "2025-07-20" "neutral";
        stored 7 "2025-08-20" "positive"; stored 8 "2025-09-10" "negative"]
       8.

(** Stored dates that are no calendar dates, beside one that is: a number
    and a date written month first. *)
Definition odd_dates : database :=
  mkDb [stored 1 "2460000" "positive"; stored 2 "9/15/2025" "neutral";
        stored 3 "2025-09-10" "negative"] 3.

(** An engine that reads the number as a Julian day of February 2023 and
    does not read the date written month first. *)
Definition julian_reader (text : string) : option string :=
  if String.eqb text "2460000" then Some "2023-02" else None.

(** A model that is rate limited on every request. *)
Definition rate_limited : nat -> outcome :=
  fun _ => Throws (Some 429%Z).

(** A model that is rate limited once and then fails with status 500. *)
Definition rate_limited_once : nat -> outcome :=
  fun n => match n with
           | 0 => Throws (Some 429%Z)
           | _ => Throws (Some 500%Z)
           end.

End Sample.

(* ===================================================================== *)
(** * Properties *)
(* ===================================================================== *)

(** ** The classifier answers once per review *)

Lemma find_mention_Found mid parsed p :
  find_mention mid parsed = Found p -> prop p "mentionId" = Some (JStr mid).
Proof.
  induction parsed as [|q rest IH]; simpl; [discriminate|].
  destruct q; simpl; try exact IH; try discriminate.
  destruct (lookup "mentionId" fields) as [[| | |s| |]|] eqn:E; try exact IH.
  destruct (String.eqb_spec s mid) as [->|_]; [|exact IH].
  intros [= <-]. exact E.
Qed.

Lemma mentionId_or_same mid : mentionId_or (Some (JStr mid)) mid = mid.
Proof. simpl. destruct (JsString.truthy mid); reflexivity. Qed.

Lemma reconcile_one_mentionId parsed m r :
  reconcile_one parsed m = Some r -> mentionId r = id m.
Proof.
  unfold reconcile_one.
  destruct (find_mention (id m) parsed) eqn:E; [discriminate | |].
  - intros [= <-]. reflexivity.
  - intros [= <-]. cbn [mentionId].
    rewrite (find_mention_Found _ _ _ E). apply mentionId_or_same.
Qed.

Lemma map_or_throw_map {A B C} (f : A -> option B) (g : B -> C) (h : A -> C) :
  (forall x y, f x = Some y -> g y = h x) ->
  forall xs ys, map_or_throw f xs = Some ys -> map g ys = map h xs.
Proof.
  intros Hf. induction xs as [|x xs IH]; simpl; intros ys.
  - intros [= <-]. reflexivity.
  - destruct (f x) as [y|] eqn:E; [|discriminate].
    destruct (map_or_throw f xs) as [ys'|]; [|discriminate].
    intros [= <-]. simpl. f_equal; [now apply Hf | now apply IH].
Qed.

Lemma map_default_mentionId ms : map mentionId (map default_result ms) = map id ms.
Proof. rewrite map_map. reflexivity. Qed.

Lemma map_nokey_mentionId ms : map mentionId (map nokey_result ms) = map id ms.
Proof. rewrite map_map. reflexivity. Qed.

Lemma merge_response_mentionId ms parsed :
  map mentionId (merge_response ms parsed) = map id ms.
Proof.
  unfold merge_response.
  destruct parsed as [[| | | |items|]|]; try apply map_default_mentionId.
  destruct (map_or_throw (reconcile_one items) ms) as [rs|] eqn:E.
  - eapply map_or_throw_map; [|exact E]. apply reconcile_one_mentionId.
  - apply map_default_mentionId.
Qed.

Lemma analyzeBatch_mentionId apiKey llm mentions retryCount log :
  map mentionId (fst (analyzeBatch apiKey llm mentions retryCount log))
  = map id mentions.
Proof.
  funelim (analyzeBatch apiKey llm mentions retryCount log); simpl;
    auto using map_default_mentionId, map_nokey_mentionId, merge_response_mentionId.
Qed.

Lemma filter_eqb_count {A} (f : A -> string) (x : string) (l : list A) :
  List.length (filter (fun r => String.eqb (f r) x) l)
  = count_occ string_dec (map f l) x.
Proof.
  induction l as [|a l IH]; simpl; [reflexivity|].
  destruct (String.eqb_spec (f a) x) as [E|E];
    destruct (string_dec (f a) x) as [E'|E']; try contradiction; simpl; now rewrite IH.
Qed.

(** C1. For a batch of reviews with distinct ids, whatever the model
    answers, [analyzeBatch] returns as many results as the batch has reviews,
    the i-th result carries the id of the i-th review, and for each review
    exactly one result has its id as [mentionId]. *)
Theorem analyzeBatch_one_result_per_review
  (apiKey : option string) (llm : nat -> outcome) (mentions : list Mention)
  (retryCount : nat) (log : list event) :
  NoDup (map id mentions) ->
  let results := fst (analyzeBatch apiKey llm mentions retryCount log) in
  List.length results = List.length mentions
  /\ map mentionId results = map id mentions
  /\ forall m, In m mentions ->
       List.length (filter (fun r => String.eqb (mentionId r) (id m)) results) = 1.
Proof.
  intros Hnodup results.
  assert (Hids : map mentionId results = map id mentions)
    by apply analyzeBatch_mentionId.
  split; [|split].
  - rewrite <- (length_map mentionId results), Hids. apply length_map.
  - exact Hids.
  - intros m Hm. rewrite filter_eqb_count, Hids.
    apply (proj1 (NoDup_count_occ' string_dec (map id mentions)) Hnodup).
    now apply in_map.
Qed.

Lemma analyzeBatch_one_result_per_review_witness :
  NoDup (map id Sample.batch)
  /\ (let results := fst (analyzeBatch (Some "key") Sample.careless Sample.batch 0 []) in
      List.length results = List.length Sample.batch
      /\ map mentionId results = map id Sample.batch
      /\ forall m, In m Sample.batch ->
           List.length (filter (fun r => String.eqb (mentionId r) (id m)) results) = 1).
Proof.
  assert (H : NoDup (map id Sample.batch)).
  { repeat constructor; simpl; intuition discriminate. }
  split; [exact H|].
  exact (analyzeBatch_one_result_per_review (Some "key") Sample.careless Sample.batch 0 [] H).
Defined.

(** ** One step of [analyzeBatch] *)

Lemma analyzeBatch_step apiKey llm mentions retryCount log :
  analyzeBatch apiKey llm mentions retryCount log =
  if has_key apiKey then
    let log1 := log ++ [Generate (map id mentions)] in
    match llm (calls log) with
    | Responds parsed => (merge_response mentions parsed, log1)
    | Throws status =>
        if is_rate_limit status && (retryCount <? 3) then
          analyzeBatch apiKey llm mentions (S retryCount)
            (log1 ++ [Sleep (waitTime retryCount)])
        else (map default_result mentions, log1)
    end
  else (map nokey_result mentions, log).
Proof.
  funelim (analyzeBatch apiKey llm mentions retryCount log); clear Heqcall;
    repeat match goal with
      | H : analyzeBatch _ _ _ _ _ = _ |- _ => clear H
      | H : lt_dec _ _ = _ |- _ => clear H
      | H : has_key _ = _ |- _ => rewrite H; clear H
      | H : llm _ = _ |- _ => rewrite H; clear H
      | H : is_rate_limit _ = _ |- _ => rewrite H; clear H
      | H : _ < 3 |- _ => apply Nat.ltb_lt in H; rewrite H; clear H
      | H : ~ _ < 3 |- _ => apply Nat.ltb_nlt in H; rewrite H; clear H
      end;
    cbn [andb]; rewrite ?andb_false_r; reflexivity.
Qed.

Lemma calls_app log1 log2 : calls (log1 ++ log2) = calls log1 + calls log2.
Proof. unfold calls. now rewrite filter_app, length_app. Qed.

Lemma calls_generate log ids : calls (log ++ [Generate ids]) = S (calls log).
Proof. rewrite calls_app. unfold calls. simpl. lia. Qed.

Lemma calls_sleep log ms : calls (log ++ [Sleep ms]) = calls log.
Proof. rewrite calls_app. unfold calls. simpl. lia. Qed.

(** With a key, the results are those of the last request made. *)
Lemma analyzeBatch_last_answer apiKey llm mentions retryCount log :
  has_key apiKey = true ->
  let res := analyzeBatch apiKey llm mentions retryCount log in
  match llm (pred (calls (snd res))) with
  | Responds parsed => fst res = merge_response mentions parsed
  | Throws _ => fst res = map default_result mentions
  end.
Proof.
  intros Hkey.
  funelim (analyzeBatch apiKey llm mentions retryCount log); try congruence;
    clear Heqcall;
    [| match goal with IH : forall _ _ _, _ -> _ |- _ =>
         exact (IH _ _ _ Hkey eq_refl eq_refl) end | |];
    cbn [fst snd]; rewrite calls_generate; cbn [pred];
    match goal with H : llm _ = _ |- _ => rewrite H end; reflexivity.
Qed.

Lemma map_or_throw_In {A B} (f : A -> option B) xs ys y :
  map_or_throw f xs = Some ys -> In y ys -> exists x, In x xs /\ f x = Some y.
Proof.
  revert ys. induction xs as [|x xs IH]; simpl; intros ys.
  - intros [= <-] [].
  - destruct (f x) as [y0|] eqn:E; [|discriminate].
    destruct (map_or_throw f xs) as [ys'|]; [|discriminate].
    intros [= <-] [<-|Hin].
    + exists x. auto.
    + destruct (IH ys' eq_refl Hin) as (x' & Hx' & Hf). exists x'. auto.
Qed.

(** Where a result of [merge_response] comes from: the default for one of
    the reviews, or the coerced members of the element found for it. *)
Lemma merge_response_In mentions parsed r :
  In r (merge_response mentions parsed) ->
  exists m, In m mentions /\ mentionId r = id m
    /\ (r = default_result m
        \/ exists items p,
             parsed = Some (JArr items)
             /\ find_mention (id m) items = Found p
             /\ r = mkAnalysis (id m)
                      (normalizeSentiment (prop p "sentiment"))
                      (score_or_default (prop p "score"))
                      (entity_or_default (prop p "entity"))).
Proof.
  assert (Hdef : In r (map default_result mentions) ->
                 exists m, In m mentions /\ mentionId r = id m
                   /\ (r = default_result m
                       \/ exists items p,
                            parsed = Some (JArr items)
                            /\ find_mention (id m) items = Found p
                            /\ r = mkAnalysis (id m)
                                     (normalizeSentiment (prop p "sentiment"))
                                     (score_or_default (prop p "score"))
                                     (entity_or_default (prop p "entity")))).
  { intros (m & <- & Hm)%in_map_iff. exists m. auto. }
  unfold merge_response.
  destruct parsed as [[| | | |items|]|]; try exact Hdef.
  destruct (map_or_throw (reconcile_one items) mentions) as [rs|] eqn:E;
    [|exact Hdef].
  intros Hin. destruct (map_or_throw_In _ _ _ _ E Hin) as (m & Hm & Hr).
  exists m. split; [exact Hm|]. split; [now apply (reconcile_one_mentionId items)|].
  unfold reconcile_one in Hr.
  destruct (find_mention (id m) items) as [| |p] eqn:F; [discriminate | |].
  - left. now injection Hr.
  - right. exists items, p. repeat split; auto.
    injection Hr as <-. f_equal.
    rewrite (find_mention_Found _ _ _ F). apply mentionId_or_same.
Qed.

(** Every result of [analyzeBatch], with a key, is the default for a review
    of the batch or is built from the element that answers for it. *)
Lemma analyzeBatch_In apiKey llm mentions retryCount log r :
  has_key apiKey = true ->
  In r (fst (analyzeBatch apiKey llm mentions retryCount log)) ->
  exists m, In m mentions /\ mentionId r = id m
    /\ (r = default_result m
        \/ exists p,
             answered_by llm (snd (analyzeBatch apiKey llm mentions retryCount log))
               (id m) p
             /\ r = mkAnalysis (id m)
                      (normalizeSentiment (prop p "sentiment"))
                      (score_or_default (prop p "score"))
                      (entity_or_default (prop p "entity"))).
Proof.
  intros Hkey Hin.
  pose proof (analyzeBatch_last_answer apiKey llm mentions retryCount log Hkey) as Hlast.
  cbv zeta in Hlast.
  destruct (llm (pred (calls (snd (analyzeBatch apiKey llm mentions retryCount log)))))
    as [status|parsed] eqn:E; rewrite Hlast in Hin.
  - apply in_map_iff in Hin as (m & <- & Hm). exists m. auto.
  - destruct (merge_response_In _ _ _ Hin) as (m & Hm & Hid & [->|(items & p & -> & F & ->)]).
    + exists m. auto.
    + exists m. repeat split; auto. right. exists p. split; [|reflexivity].
      exists items. auto.
Qed.

(** The element that answers for a review is unique. *)
Lemma answered_by_unique llm log mid p q :
  answered_by llm log mid p -> answered_by llm log mid q -> p = q.
Proof.
  intros (items & E & F) (items' & E' & F'). congruence.
Qed.

(** ** Scores and entities of the results *)

Lemma truthy_true_iff s : JsString.truthy s = true <-> s <> "".
Proof. destruct s; simpl; split; congruence. Qed.

(** C3 (amended). With an API key configured, the score of every result of
    [analyzeBatch] is either 0.5 or the number the answering element of the
    model's response carries as [score], taken as it is; and when no element
    answers for the review, or the answering element has no numeric
    [score], the score is 0.5. *)
Theorem analyzeBatch_score_or_default
  (apiKey : option string) (llm : nat -> outcome) (mentions : list Mention)
  (retryCount : nat) (log : list event) (r : SentimentAnalysis) :
  has_key apiKey = true ->
  In r (fst (analyzeBatch apiKey llm mentions retryCount log)) ->
  (score r = 0.5%float
   \/ exists p,
        answered_by llm (snd (analyzeBatch apiKey llm mentions retryCount log))
          (mentionId r) p
        /\ prop p "score" = Some (JNum (score r)))
  /\ ((forall p,
         answered_by llm (snd (analyzeBatch apiKey llm mentions retryCount log))
           (mentionId r) p ->
         forall x, prop p "score" <> Some (JNum x)) ->
      score r = 0.5%float).
Proof.
  intros Hkey Hin.
  destruct (analyzeBatch_In _ _ _ _ _ _ Hkey Hin)
    as (m & _ & Hid & [->|(p & Hp & ->)]).
  - split; [left|]; reflexivity.
  - cbn [mentionId score] in *.
    destruct (prop p "score") as [[| |x| | |]|] eqn:E; cbn [score_or_default];
      try (split; [left|]; reflexivity).
    split.
    + right. exists p. auto.
    + intros H. exfalso. apply (H p Hp x). exact E.
Qed.

(** C4 (amended). The entity of every result of [analyzeBatch] is either
    'General' or the string the answering element of the model's response
    carries as [entity], which then has a character that is not white space;
    it is 'General' when no element answers for the review or the answering
    element's [entity] is no string, is empty or is white space only. No
    result is compared with the taxonomy. *)
Theorem analyzeBatch_entity_or_General
  (apiKey : option string) (llm : nat -> outcome) (mentions : list Mention)
  (retryCount : nat) (log : list event) (r : SentimentAnalysis) :
  In r (fst (analyzeBatch apiKey llm mentions retryCount log)) ->
  (entity r = "General"
   \/ exists p,
        answered_by llm (snd (analyzeBatch apiKey llm mentions retryCount log))
          (mentionId r) p
        /\ prop p "entity" = Some (JStr (entity r))
        /\ JsString.trim (entity r) <> "")
  /\ ((forall p,
         answered_by llm (snd (analyzeBatch apiKey llm mentions retryCount log))
           (mentionId r) p ->
         forall s, prop p "entity" = Some (JStr s) -> JsString.trim s = "") ->
      entity r = "General").
Proof.
  intros Hin.
  destruct (has_key apiKey) eqn:Hkey.
  - destruct (analyzeBatch_In _ _ _ _ _ _ Hkey Hin)
      as (m & _ & Hid & [->|(p & Hp & ->)]).
    + split; [left|]; reflexivity.
    + cbn [mentionId entity] in *.
      destruct (prop p "entity") as [[| | |s| |]|] eqn:E; cbn [entity_or_default];
        try (split; [left|]; reflexivity).
      destruct (JsString.truthy (JsString.trim s)) eqn:T;
        [|split; [left|]; reflexivity].
      apply truthy_true_iff in T. split.
      * right. exists p. auto.
      * intros H. exfalso. apply T. apply (H p Hp s). exact E.
  - rewrite analyzeBatch_step, Hkey in Hin. cbn [fst] in Hin.
    apply in_map_iff in Hin as (m & <- & _).
    split; [left|]; reflexivity.
Qed.

Lemma analyzeBatch_score_or_default_witness :
  has_key (Some "key") = true
  /\ In Sample.off_result
       (fst (analyzeBatch (Some "key") Sample.off_range Sample.single 0 []))
  /\ (score Sample.off_result = 0.5%float
      \/ exists p,
           answered_by Sample.off_range
             (snd (analyzeBatch (Some "key") Sample.off_range Sample.single 0 []))
             (mentionId Sample.off_result) p
           /\ prop p "score" = Some (JNum (score Sample.off_result))).
Proof.
  assert (Hkey : has_key (Some "key") = true) by reflexivity.
  assert (Hin : In Sample.off_result
                  (fst (analyzeBatch (Some "key") Sample.off_range Sample.single 0 [])))
    by (vm_compute; left; reflexivity).
  split; [exact Hkey|]. split; [exact Hin|].
  exact (proj1 (analyzeBatch_score_or_default (Some "key") Sample.off_range
                  Sample.single 0 [] Sample.off_result Hkey Hin)).
Defined.

(** C3 as stated fails: a numeric score of the model is passed on unchanged,
    so a score of 7 is returned; and with no API key the score is 0. *)
Lemma analyzeBatch_score_counterexample :
  (exists r,
     In r (fst (analyzeBatch (Some "key") Sample.off_range Sample.single 0 []))
     /\ in_unit_interval (score r) = false)
  /\ (exists r,
        In r (fst (analyzeBatch None Sample.careless Sample.single 0 []))
        /\ PrimFloat.eqb (score r) 0.5 = false).
Proof.
  split.
  - exists Sample.off_result. split; [vm_compute; left|]; reflexivity.
  - exists (nokey_result (Sample.review 1 "enak banget, mantap!")).
    split; [vm_compute; left|]; reflexivity.
Qed.

Lemma analyzeBatch_entity_or_General_witness :
  In Sample.off_result
    (fst (analyzeBatch (Some "key") Sample.off_range Sample.single 0 []))
  /\ (entity Sample.off_result = "General"
      \/ exists p,
           answered_by Sample.off_range
             (snd (analyzeBatch (Some "key") Sample.off_range Sample.single 0 []))
             (mentionId Sample.off_result) p
           /\ prop p "entity" = Some (JStr (entity Sample.off_result))
           /\ JsString.trim (entity Sample.off_result) <> "").
Proof.
  assert (Hin : In Sample.off_result
                  (fst (analyzeBatch (Some "key") Sample.off_range Sample.single 0 [])))
    by (vm_compute; left; reflexivity).
  split; [exact Hin|].
  exact (proj1 (analyzeBatch_entity_or_General (Some "key") Sample.off_range
                  Sample.single 0 [] Sample.off_result Hin)).
Defined.

(** C4 as stated fails: an entity outside the taxonomy is passed on. *)
Lemma analyzeBatch_entity_counterexample :
  exists r,
    In r (fst (analyzeBatch (Some "key") Sample.off_range Sample.single 0 []))
    /\ ~ In (entity r) taxonomy.
Proof.
  exists Sample.off_result. split; [vm_compute; left; reflexivity|].
  simpl. intuition discriminate.
Qed.

(** ** The retry policy *)

Lemma leading_rate_limits_le llm k budget :
  leading_rate_limits llm k budget <= budget.
Proof.
  revert k. induction budget as [|b IH]; intros k; simpl; [lia|].
  destruct (is_rate_limited (llm k)); [|lia]. specialize (IH (S k)). lia.
Qed.

Lemma leading_rate_limits_all llm k budget i :
  i < leading_rate_limits llm k budget -> is_rate_limited (llm (k + i)) = true.
Proof.
  revert k i. induction budget as [|b IH]; intros k i; simpl; [lia|].
  destruct (is_rate_limited (llm k)) eqn:E; [|lia].
  destruct i as [|i]; intros Hi.
  - now rewrite Nat.add_0_r.
  - replace (k + S i) with (S k + i) by lia. apply IH. lia.
Qed.

Lemma leading_rate_limits_stop llm k budget :
  leading_rate_limits llm k budget < budget ->
  is_rate_limited (llm (k + leading_rate_limits llm k budget)) = false.
Proof.
  revert k. induction budget as [|b IH]; intros k; simpl; [lia|].
  destruct (is_rate_limited (llm k)) eqn:E; intros Hlt.
  - replace (k + S (leading_rate_limits llm (S k) b))
      with (S k + leading_rate_limits llm (S k) b) by lia.
    apply IH. lia.
  - now rewrite Nat.add_0_r.
Qed.

(** A run of [retries] rate-limit signals followed by anything else, or by a
    fourth signal when the retries are used up. *)
Lemma analyzeBatch_attempts apiKey llm mentions :
  has_key apiKey = true ->
  forall retries retryCount log,
    retryCount + retries <= 3 ->
    (forall i, i < retries -> is_rate_limited (llm (calls log + i)) = true) ->
    (retryCount + retries < 3 ->
     is_rate_limited (llm (calls log + retries)) = false) ->
    analyzeBatch apiKey llm mentions retryCount log =
    (match llm (calls log + retries) with
     | Responds parsed => merge_response mentions parsed
     | Throws _ => map default_result mentions
     end,
     log ++ attempts (map id mentions) retryCount retries).
Proof.
  intros Hkey. induction retries as [|j IH]; intros retryCount log Hle Hall Hstop.
  - rewrite analyzeBatch_step, Hkey. rewrite !Nat.add_0_r in *. cbn [attempts].
    destruct (llm (calls log)) as [status|parsed] eqn:E; [|reflexivity].
    destruct (retryCount <? 3) eqn:L.
    + apply Nat.ltb_lt in L. specialize (Hstop L). rewrite ?E in Hstop.
      simpl in Hstop. rewrite Hstop. reflexivity.
    + rewrite andb_false_r. reflexivity.
  - rewrite analyzeBatch_step, Hkey.
    pose proof (Hall 0 ltac:(lia)) as H0. rewrite Nat.add_0_r in H0.
    destruct (llm (calls log)) as [status|parsed] eqn:E; [|discriminate].
    simpl in H0. rewrite H0.
    replace (retryCount <? 3) with true by (symmetry; apply Nat.ltb_lt; lia).
    cbn [andb].
    rewrite IH.
    + rewrite calls_sleep, calls_generate.
      replace (S (calls log) + j) with (calls log + S j) by lia.
      cbn [attempts]. rewrite <- !app_assoc. reflexivity.
    + lia.
    + intros i Hi. rewrite calls_sleep, calls_generate.
      replace (S (calls log) + i) with (calls log + S i) by lia.
      apply Hall. lia.
    + intros Hlt. rewrite calls_sleep, calls_generate.
      replace (S (calls log) + j) with (calls log + S j) by lia.
      apply Hstop. lia.
Qed.

Lemma sleeps_attempts ids retries :
  retries <= 3 -> sleeps (attempts ids 0 retries) = firstn retries backoff.
Proof.
  intros H.
  destruct retries as [|[|[|[|n]]]]; [reflexivity .. | lia].
Qed.

Lemma is_rate_limited_signal o :
  is_rate_limited o = true <-> o = Throws (Some 429%Z).
Proof.
  destruct o as [[n|]|parsed]; simpl; split; try discriminate.
  - intros H%Z.eqb_eq. now subst.
  - now intros [= ->].
Qed.

Lemma attempts_retry_events ids retries :
  retries <= 3 ->
  attempts ids 0 retries = retry_events ids (firstn retries [15000; 30000; 60000]%Z).
Proof.
  intros H.
  destruct retries as [|[|[|[|n]]]]; [reflexivity .. | lia].
Qed.

(** C6. With an API key configured, when the first [retries] requests for a
    batch, three at most, fail with the rate-limit signal (an error with
    status 429) and the next request does not, or is the fourth,
    [analyzeBatch] makes those requests for the same batch with pauses of
    15, 30 and 60 seconds after the failed ones and makes no other. When
    the last request throws, whatever the error (a fourth 429 or an error
    of another class), it returns the default result (neutral, 0.5,
    General) for every review; when it answers, it returns the merged
    answer. No error leaves [analyzeBatch]. *)
Theorem analyzeBatch_retry_policy
  (apiKey : option string) (llm : nat -> outcome) (mentions : list Mention)
  (log : list event) (retries : nat) :
  has_key apiKey = true ->
  retries <= 3 ->
  (forall i, i < retries -> llm (calls log + i) = Throws (Some 429%Z)) ->
  (retries < 3 -> llm (calls log + retries) <> Throws (Some 429%Z)) ->
  let res := analyzeBatch apiKey llm mentions 0 log in
  snd res
  = log ++ retry_events (map id mentions) (firstn retries [15000; 30000; 60000]%Z)
  /\ fst res =
       match llm (calls log + retries) with
       | Responds parsed => merge_response mentions parsed
       | Throws _ =>
           map (fun m => mkAnalysis (id m) neutral 0.5%float "General") mentions
       end.
Proof.
  intros Hkey Hle Hall Hstop res.
  assert (Hrun : res =
            (match llm (calls log + retries) with
             | Responds parsed => merge_response mentions parsed
             | Throws _ => map default_result mentions
             end,
             log ++ attempts (map id mentions) 0 retries)).
  { apply (analyzeBatch_attempts apiKey llm mentions Hkey retries 0 log Hle).
    - intros i Hi. apply is_rate_limited_signal. now apply Hall.
    - intros Hlt. specialize (Hstop Hlt).
      destruct (is_rate_limited (llm (calls log + retries))) eqn:E; [|reflexivity].
      now apply is_rate_limited_signal in E. }
  rewrite Hrun. cbn [fst snd]. split.
  - now rewrite attempts_retry_events.
  - destruct (llm (calls log + retries)); reflexivity.
Qed.

Lemma analyzeBatch_retry_policy_witness :
  has_key (Some "key") = true
  /\ 3 <= 3
  /\ (forall i, i < 3 -> Sample.rate_limited (calls [] + i) = Throws (Some 429%Z))
  /\ (3 < 3 -> Sample.rate_limited (calls [] + 3) <> Throws (Some 429%Z))
  /\ snd (analyzeBatch (Some "key") Sample.rate_limited Sample.batch 0 [])
     = [] ++ retry_events (map id Sample.batch) (firstn 3 [15000; 30000; 60000]%Z)
  /\ fst (analyzeBatch (Some "key") Sample.rate_limited Sample.batch 0 [])
     = match Sample.rate_limited (calls [] + 3) with
       | Responds parsed => merge_response Sample.batch parsed
       | Throws _ =>
           map (fun m => mkAnalysis (id m) neutral 0.5%float "General") Sample.batch
       end.
Proof.
  assert (H3 : 3 <= 3) by lia.
  assert (Hall : forall i, i < 3 ->
                   Sample.rate_limited (calls [] + i) = Throws (Some 429%Z))
    by (intros i _; reflexivity).
  assert (Hstop : 3 < 3 ->
                  Sample.rate_limited (calls [] + 3) <> Throws (Some 429%Z))
    by lia.
  split; [reflexivity|]. split; [exact H3|]. split; [exact Hall|].
  split; [exact Hstop|].
  exact (analyzeBatch_retry_policy (Some "key") Sample.rate_limited Sample.batch []
           3 eq_refl H3 Hall Hstop).
Defined.

(** One rate-limit signal and then an error of another class: one pause of
    15 seconds, two requests, defaults. *)
Example analyzeBatch_rate_limited_once_run :
  analyzeBatch (Some "key") Sample.rate_limited_once Sample.batch 0 [] =
  (map default_result Sample.batch,
   [Generate ["csv-row-1"; "csv-row-2"]; Sleep 15000;
    Generate ["csv-row-1"; "csv-row-2"]]).
Proof. vm_compute. reflexivity. Qed.

(** The run of the sample model that is always rate limited: four requests,
    three pauses, defaults. *)
Example analyzeBatch_rate_limited_run :
  analyzeBatch (Some "key") Sample.rate_limited Sample.batch 0 [] =
  (map default_result Sample.batch,
   [Generate ["csv-row-1"; "csv-row-2"]; Sleep 15000;
    Generate ["csv-row-1"; "csv-row-2"]; Sleep 30000;
    Generate ["csv-row-1"; "csv-row-2"]; Sleep 60000;
    Generate ["csv-row-1"; "csv-row-2"]]).
Proof. vm_compute. reflexivity. Qed.

(** ** The row normalizer *)

(** The content of a row is the first non-empty value among the columns
    content, text, Review, comment and caption, in that order. *)
Lemma row_content_first_nonempty row :
  first_nonempty content_aliases row =
  (if JsString.truthy (row_content row) then Some (row_content row) else None).
Proof.
  unfold row_content, content_aliases, first_nonempty, or_else.
  repeat match goal with
    | |- context [field ?k row] =>
        let v := fresh "v" in
        destruct (field k row) as [v|];
        [destruct (JsString.truthy v) eqn:?|]
    end; simpl; try reflexivity;
    repeat match goal with H : JsString.truthy _ = _ |- _ => rewrite H; clear H end;
    reflexivity.
Qed.

(** C5 (amended). The normalizer takes the content of a row from the first
    non-empty value among the columns content, text, Review, comment and
    caption, compared exactly and in that order, and drops the row when
    there is none. *)
Theorem normalize_row_content
  (platform : qvalue) (nowISO : string) (rowCount : nat) (row : RawRow) :
  normalize_row platform nowISO rowCount row =
  match first_nonempty ["content"; "text"; "Review"; "comment"; "caption"] row with
  | Some text =>
      Some (mkMention (row_id rowCount) platform text
              (normalizeDate (rawDate nowISO row)))
  | None => None
  end.
Proof.
  unfold normalize_row. fold content_aliases.
  rewrite row_content_first_nonempty.
  destruct (JsString.truthy (row_content row)); reflexivity.
Qed.

(** A row whose only content-bearing column is named Review is kept. *)
Example normalize_row_Review :
  normalize_row (QString "CSV") "2025-09-20T08:00:00.000Z" 1
    [("Review", "enak banget"); ("date", "2025-09-15")]
  = Some (mkMention "csv-row-1" (QString "CSV") "enak banget" "2025-09-15").
Proof. reflexivity. Qed.

(** C5 as stated fails: a row whose only content-bearing column is named
    review, in lower case, has no content for the normalizer and is
    dropped. *)
Lemma normalize_row_review_counterexample :
  normalize_row (QString "CSV") "2025-09-20T08:00:00.000Z" 1
    [("review", "enak banget"); ("date", "2025-09-15")]
  = None.
Proof. reflexivity. Qed.

(** ** Dates *)

Lemma append_empty_r s : String.append s "" = s.
Proof. induction s as [|c s IH]; simpl; [reflexivity | now rewrite IH]. Qed.

Lemma before_append sep s t :
  has_char sep s = false ->
  JsString.before sep (String.append s t) = String.append s (JsString.before sep t).
Proof.
  induction s as [|c s IH]; simpl; [reflexivity|].
  intros [Hc Hs]%orb_false_iff. rewrite Hc, IH by exact Hs. reflexivity.
Qed.

Lemma before_absent sep s : has_char sep s = false -> JsString.before sep s = s.
Proof.
  intros H. rewrite <- (append_empty_r s) at 1.
  rewrite before_append by exact H. apply append_empty_r.
Qed.

Lemma before_separator sep s rest :
  has_char sep s = false ->
  JsString.before sep (String.append s (String sep rest)) = s.
Proof.
  intros H. rewrite before_append by exact H. simpl.
  rewrite Ascii.eqb_refl. apply append_empty_r.
Qed.

Lemma is_digit_not_separator c :
  JsString.is_digit c = true -> Ascii.eqb c "T" = false /\ Ascii.eqb c " " = false.
Proof.
  destruct c as [[] [] [] [] [] [] [] []]; vm_compute; intros; try discriminate;
    split; reflexivity.
Qed.

Lemma ymd_shaped_inv d :
  ymd_shaped d = true ->
  has_char "T" d = false /\ has_char " " d = false
  /\ JsString.prefix 10 d = d /\ matches_ymd d = true.
Proof.
  unfold ymd_shaped. intros [Hlen Hm]%andb_true_iff.
  do 10 (destruct d as [|? d]; [discriminate|]).
  destruct d; [|discriminate]. clear Hlen.
  split; [|split; [|split; [reflexivity | exact Hm]]];
    unfold matches_ymd in Hm;
    repeat match goal with
      | H : (_ && _) = true |- _ => apply andb_true_iff in H; destruct H
      | H : JsString.is_digit _ = true |- _ =>
          apply is_digit_not_separator in H; destruct H
      | H : Ascii.eqb _ "-" = true |- _ => apply Ascii.eqb_eq in H; subst
      end;
    cbn [has_char];
    repeat match goal with H : Ascii.eqb _ _ = false |- _ => rewrite H; clear H end;
    reflexivity.
Qed.

(** The date of a text that begins with a calendar date followed by a time
    of day is the calendar date. *)
Lemma normalizeDate_strips_time d sep rest :
  ymd_shaped d = true -> sep = "T"%char \/ sep = " "%char ->
  normalizeDate (String.append d (String sep rest)) = d.
Proof.
  intros (HT & HS & Hpre & Hm)%ymd_shaped_inv Hsep.
  assert (E : JsString.before " " (JsString.before "T" (String.append d (String sep rest))) = d).
  { destruct Hsep as [-> | ->].
    - rewrite before_separator by exact HT. now apply before_absent.
    - rewrite before_append by exact HT. cbn [JsString.before].
      change (Ascii.eqb " " "T") with false. cbv iota.
      now apply before_separator. }
  unfold normalizeDate. rewrite E, Hm. exact Hpre.
Qed.

Lemma is_date_key_truthy k : is_date_key k = true -> JsString.truthy k = true.
Proof. destruct k; [discriminate | reflexivity]. Qed.

(** C8. For a row that is kept, when the value of its first date column is
    a calendar date YYYY-MM-DD followed by 'T' or a space and a time, the
    date of the record is that calendar date; and when the row has no date
    column, it is the calendar date of the clock's ISO text. The date
    column is the first whose name, in lower case and trimmed, is one of the
    known names. *)
Theorem normalize_row_date
  (platform : qvalue) (nowISO : string) (rowCount : nat) (row : RawRow)
  (m : Mention) (d : string) (sep : ascii) (rest : string) :
  ymd_shaped d = true ->
  sep = "T"%char \/ sep = " "%char ->
  normalize_row platform nowISO rowCount row = Some m ->
  (forall k, find is_date_key (map fst row) = Some k ->
             field k row = Some (String.append d (String sep rest)) ->
             date m = d)
  /\ (find is_date_key (map fst row) = None ->
      nowISO = String.append d (String "T" rest) ->
      date m = d).
Proof.
  intros Hd Hsep Hrow. unfold normalize_row in Hrow.
  destruct (JsString.truthy (row_content row)); [|discriminate].
  injection Hrow as <-. cbn [date]. unfold rawDate. split.
  - intros k Hk Hv. rewrite Hk.
    apply find_some in Hk as [_ Hk]. rewrite (is_date_key_truthy _ Hk), Hv.
    now apply normalizeDate_strips_time.
  - intros Hnone ->. rewrite Hnone.
    apply normalizeDate_strips_time; auto.
Qed.

Lemma normalize_row_date_witness :
  ymd_shaped "2025-09-15" = true
  /\ ("T"%char = "T"%char \/ "T"%char = " "%char)
  /\ normalize_row (QString "CSV") "2025-09-20T08:00:00.000Z" 1
       [("content", "enak banget"); (" Date", "2025-09-15T10:00:00Z")]
     = Some (mkMention "csv-row-1" (QString "CSV") "enak banget" "2025-09-15")
  /\ date (mkMention "csv-row-1" (QString "CSV") "enak banget" "2025-09-15")
     = "2025-09-15".
Proof.
  split; [reflexivity|]. split; [left; reflexivity|]. split; [reflexivity|].
  exact (proj1 (normalize_row_date (QString "CSV") "2025-09-20T08:00:00.000Z" 1
                  [("content", "enak banget"); (" Date", "2025-09-15T10:00:00Z")]
                  (mkMention "csv-row-1" (QString "CSV") "enak banget" "2025-09-15")
                  "2025-09-15" "T" "10:00:00Z" eq_refl (or_introl eq_refl) eq_refl)
               " Date" eq_refl eq_refl).
Defined.

Example normalizeDate_T : normalizeDate "2025-09-15T10:00:00Z" = "2025-09-15".
Proof. reflexivity. Qed.

Example normalizeDate_space : normalizeDate "2025-09-15 10:00:00" = "2025-09-15".
Proof. reflexivity. Qed.

(** A row with no date column gets the day of the clock. *)
Example normalize_row_no_date :
  normalize_row (QString "CSV") "2025-09-20T08:00:00.000Z" 3 [("text", "oke standar aja")]
  = Some (mkMention "csv-row-3" (QString "CSV") "oke standar aja" "2025-09-20").
Proof. reflexivity. Qed.

(** ** The batcher *)

Lemma classify_from_step apiKey llm mentions i analyses log :
  classify_from apiKey llm mentions i analyses log =
  if i <? List.length mentions then
    let res := analyzeBatch apiKey llm (slice i (i + BATCH_SIZE) mentions) 0 log in
    classify_from apiKey llm mentions (i + BATCH_SIZE) (analyses ++ fst res)
      (if i + BATCH_SIZE <? List.length mentions
       then snd res ++ [Sleep 12000] else snd res)
  else (analyses, log).
Proof.
  funelim (classify_from apiKey llm mentions i analyses log); clear Heqcall;
    repeat match goal with
      | H : classify_from _ _ _ _ _ _ = _ |- _ => clear H
      | H : lt_dec _ _ = _ |- _ => clear H
      | H : _ < _ |- _ => apply Nat.ltb_lt in H; rewrite H; clear H
      | H : ~ _ < _ |- _ => apply Nat.ltb_nlt in H; rewrite H; clear H
      end;
    reflexivity.
Qed.

Lemma totalBatches_spec n :
  n <= BATCH_SIZE * totalBatches n < n + BATCH_SIZE.
Proof.
  unfold totalBatches, BATCH_SIZE. simpl Nat.sub.
  pose proof (Nat.div_mod_eq (n + 14) 15).
  pose proof (Nat.mod_upper_bound (n + 14) 15 ltac:(lia)).
  lia.
Qed.

Lemma firstn_add {A} a b (l : list A) :
  firstn (a + b) l = firstn a l ++ firstn b (skipn a l).
Proof.
  revert l. induction a as [|a IH]; intros l; [reflexivity|].
  destruct l as [|x l]; simpl; [now rewrite firstn_nil | now rewrite IH].
Qed.

Lemma concat_slices {A} (xs : list A) d : forall k,
  List.concat (map (fun k => slice (k * BATCH_SIZE) (k * BATCH_SIZE + BATCH_SIZE) xs)
            (seq k d))
  = firstn (d * BATCH_SIZE) (skipn (k * BATCH_SIZE) xs).
Proof.
  induction d as [|d IH]; intros k; [reflexivity|].
  cbn [seq map List.concat]. rewrite IH. unfold slice.
  replace (k * BATCH_SIZE + BATCH_SIZE - k * BATCH_SIZE) with BATCH_SIZE by lia.
  replace (S d * BATCH_SIZE) with (BATCH_SIZE + d * BATCH_SIZE) by lia.
  rewrite firstn_add, skipn_skipn.
  replace (S k * BATCH_SIZE) with (BATCH_SIZE + k * BATCH_SIZE) by lia.
  reflexivity.
Qed.

Lemma concat_batches {A} (xs : list A) : List.concat (batches xs) = xs.
Proof.
  unfold batches. rewrite concat_slices. simpl skipn.
  apply firstn_all2. pose proof (totalBatches_spec (List.length xs)). lia.
Qed.

Lemma length_slice {A} (xs : list A) k :
  List.length (slice (k * BATCH_SIZE) (k * BATCH_SIZE + BATCH_SIZE) xs)
  = Nat.min BATCH_SIZE (List.length xs - k * BATCH_SIZE).
Proof.
  unfold slice. rewrite length_firstn, length_skipn. lia.
Qed.

Lemma length_batches {A} (xs : list A) :
  List.length (batches xs) = totalBatches (List.length xs).
Proof. unfold batches. now rewrite length_map, length_seq. Qed.

Lemma nth_batches {A} (xs : list A) k :
  k < totalBatches (List.length xs) ->
  nth k (batches xs) [] = slice (k * BATCH_SIZE) (k * BATCH_SIZE + BATCH_SIZE) xs.
Proof.
  intros Hk. unfold batches.
  rewrite (nth_indep _ [] (slice (0 * BATCH_SIZE) (0 * BATCH_SIZE + BATCH_SIZE) xs))
    by now rewrite length_map, length_seq.
  rewrite (map_nth (fun k => slice (k * BATCH_SIZE) (k * BATCH_SIZE + BATCH_SIZE) xs)).
  now rewrite seq_nth.
Qed.

(** Every batch holds 1 to 15 reviews, and 15 when another one follows. *)
Lemma batches_sizes {A} (xs : list A) k :
  k < List.length (batches xs) ->
  1 <= List.length (nth k (batches xs) []) <= BATCH_SIZE
  /\ (S k < List.length (batches xs) ->
      List.length (nth k (batches xs) []) = BATCH_SIZE).
Proof.
  rewrite length_batches. intros Hk. rewrite nth_batches, length_slice by exact Hk.
  pose proof (totalBatches_spec (List.length xs)). unfold BATCH_SIZE in *. lia.
Qed.

(** The loop, entered at the start of batch [k], does what [dispatch] does
    with the batches from [k] on. *)
Lemma classify_from_dispatch apiKey llm mentions : forall d k analyses log,
  k + d = totalBatches (List.length mentions) ->
  classify_from apiKey llm mentions (k * BATCH_SIZE) analyses log =
  let run :=
    dispatch apiKey llm
      (map (fun k => slice (k * BATCH_SIZE) (k * BATCH_SIZE + BATCH_SIZE) mentions)
         (seq k d)) log in
  (analyses ++ List.concat (fst run), snd run).
Proof.
  pose proof (totalBatches_spec (List.length mentions)) as Hnb.
  induction d as [|d IH]; intros k analyses log Hk; rewrite classify_from_step.
  - replace (k * BATCH_SIZE <? List.length mentions) with false
      by (symmetry; apply Nat.ltb_ge; unfold BATCH_SIZE in *; lia).
    simpl. now rewrite app_nil_r.
  - replace (k * BATCH_SIZE <? List.length mentions) with true
      by (symmetry; apply Nat.ltb_lt; unfold BATCH_SIZE in *; lia).
    cbv zeta. replace (k * BATCH_SIZE + BATCH_SIZE) with (S k * BATCH_SIZE) by lia.
    rewrite IH by lia. cbn [seq map dispatch fst snd List.concat].
    rewrite <- app_assoc.
    replace (S k * BATCH_SIZE) with (k * BATCH_SIZE + BATCH_SIZE) by lia.
    destruct d as [|d].
    + replace (k * BATCH_SIZE + BATCH_SIZE <? List.length mentions) with false
        by (symmetry; apply Nat.ltb_ge; unfold BATCH_SIZE in *; lia).
      reflexivity.
    + replace (k * BATCH_SIZE + BATCH_SIZE <? List.length mentions) with true
        by (symmetry; apply Nat.ltb_lt; unfold BATCH_SIZE in *; lia).
      reflexivity.
Qed.

Lemma dispatch_mentionIds apiKey llm bs : forall log,
  Forall2 (fun b results => map mentionId results = map id b)
    bs (fst (dispatch apiKey llm bs log)).
Proof.
  induction bs as [|b rest IH]; intros log; cbn [dispatch fst]; constructor.
  - apply analyzeBatch_mentionId.
  - apply IH.
Qed.

Lemma Forall2_map_concat {A B C} (f : A -> C) (g : B -> C) xss yss :
  Forall2 (fun xs ys => map g ys = map f xs) xss yss ->
  map g (List.concat yss) = map f (List.concat xss).
Proof.
  induction 1 as [|xs ys xss yss H _ IH]; [reflexivity|].
  simpl. rewrite !map_app. congruence.
Qed.

(** C2. The loop of the handler hands the reviews to the classifier in
    consecutive batches of 15, the last one of 1 to 15, which put end to
    end are the reviews in their order; what it gathers is the per-batch
    results put end to end, so the i-th result carries the id of the i-th
    review; and for no review at all it returns no result and leaves the
    log of events as it was. *)
Theorem classify_all_batches
  (apiKey : option string) (llm : nat -> outcome) (mentions : list Mention)
  (log : list event) :
  let bs := batches mentions in
  let run := dispatch apiKey llm bs log in
  List.concat bs = mentions
  /\ (forall k, k < List.length bs ->
        1 <= List.length (nth k bs []) <= 15
        /\ (S k < List.length bs -> List.length (nth k bs []) = 15))
  /\ classify_all apiKey llm mentions log = (List.concat (fst run), snd run)
  /\ Forall2 (fun b results => map mentionId results = map id b) bs (fst run)
  /\ map mentionId (fst (classify_all apiKey llm mentions log)) = map id mentions
  /\ classify_all apiKey llm [] log = ([], log).
Proof.
  intros bs run.
  assert (Hrun : classify_all apiKey llm mentions log = (List.concat (fst run), snd run)).
  { unfold classify_all.
    apply (classify_from_dispatch apiKey llm mentions
             (totalBatches (List.length mentions)) 0 [] log eq_refl). }
  assert (Hids : Forall2 (fun b results => map mentionId results = map id b)
                   bs (fst run)) by apply dispatch_mentionIds.
  split; [apply concat_batches|].
  split; [intros k Hk; apply (batches_sizes mentions k Hk)|].
  split; [exact Hrun|]. split; [exact Hids|]. split.
  - rewrite Hrun. cbn [fst].
    rewrite (Forall2_map_concat id mentionId bs (fst run) Hids).
    unfold bs. now rewrite concat_batches.
  - reflexivity.
Qed.

(** Thirty-one reviews go in batches of 15, 15 and 1. *)
Example batches_31 :
  map (@List.length nat) (batches (seq 1 31)) = [15; 15; 1].
Proof. reflexivity. Qed.

(** ** The persistence writer *)

(** The transaction stores, in their order, the items whose insert succeeds
    and goes on after one that fails. *)
Lemma run_inserts_accepted fault datetime_now items : forall k db,
  map item_of_row (reviews (run_inserts fault datetime_now k items db))
  = map item_of_row (reviews db) ++ accepted fault k items.
Proof.
  induction items as [|item rest IH]; intros k db; cbn [run_inserts accepted].
  - now rewrite app_nil_r.
  - unfold insert_run.
    destruct item as [[| platform | |] c d s e sc]; cbn [Item.platform];
      try apply IH.
    destruct (fault k); [apply IH|].
    rewrite IH. cbn [reviews]. rewrite map_app, <- app_assoc. reflexivity.
Qed.

Lemma transaction_accepted fault datetime_now items db :
  map item_of_row (reviews (transaction fault datetime_now items db))
  = map item_of_row (reviews db) ++ accepted fault 0 items.
Proof. apply run_inserts_accepted. Qed.

(** The answer to an upload carries the number of reviews handed to the
    transaction. *)
Lemma on_end_message apiKey llm fault datetime_now mentions db log :
  fst (fst (on_end apiKey llm fault datetime_now mentions db log))
  = mkResponse 200 (stored_message (List.length mentions)).
Proof.
  unfold on_end, bind, ret.
  destruct (classify_all apiKey llm mentions log) as [analyses log'].
  cbn [fst]. now rewrite length_map.
Qed.

(** C7. The code at the failing inputs. An upload of three rows whose
    second insert fails stores the first and the third row, so the failing
    insert is skipped and the transaction goes on, and answers that three
    reviews were stored. An upload with a repeated platform parameter
    stores none of its rows, since the driver cannot bind an array, and
    answers that three reviews were stored. *)
Theorem upload_csv_reports_attempted_rows :
  (let out :=
     fst (upload_csv (Some "key") Sample.careless Sample.second_fails
            "2025-09-20 08:00:05" (QString "Google Review") Sample.clock
            Sample.rows Sample.empty_db []) in
   message (fst out) = "Successfully analyzed and stored 3 reviews."
   /\ map Review.content (reviews (snd out))
      = ["enak banget, mantap!"; "oke standar aja"])
  /\ (let out :=
        fst (upload_csv (Some "key") Sample.careless Sample.healthy
               "2025-09-20 08:00:05" Sample.repeated_platform Sample.clock
               Sample.rows Sample.empty_db []) in
      status (fst out) = 200
      /\ message (fst out) = "Successfully analyzed and stored 3 reviews."
      /\ reviews (snd out) = []).
Proof. vm_compute. repeat split; reflexivity. Qed.

(** ** The listing *)

Lemma insert_desc_perm r l : Permutation (insert_desc r l) (r :: l).
Proof.
  induction l as [|x l IH]; simpl; [reflexivity|].
  destruct (String.leb (Review.date x) (Review.date r)); [reflexivity|].
  rewrite IH. apply perm_swap.
Qed.

Lemma order_by_date_desc_perm rows : Permutation (order_by_date_desc rows) rows.
Proof.
  induction rows as [|r rows IH]; simpl; [constructor|].
  rewrite insert_desc_perm. now constructor.
Qed.

Lemma insert_desc_sorted r l :
  Sorted date_desc l -> Sorted date_desc (insert_desc r l).
Proof.
  induction 1 as [|x l Hl IH Hx]; simpl; [repeat constructor|].
  destruct (String.leb (Review.date x) (Review.date r)) eqn:E.
  - repeat constructor; assumption.
  - assert (Hxr : date_desc x r).
    { unfold date_desc.
      destruct (String.leb_total (Review.date x) (Review.date r)); congruence. }
    constructor; [exact IH|].
    destruct l as [|y l]; simpl; [now constructor|].
    destruct (String.leb (Review.date y) (Review.date r)); constructor;
      [exact Hxr | now inversion Hx].
Qed.

Lemma order_by_date_desc_sorted rows : Sorted date_desc (order_by_date_desc rows).
Proof.
  induction rows as [|r rows IH]; simpl; [constructor | now apply insert_desc_sorted].
Qed.

(** C10. For a sentiment parameter that is not one of the strings positive,
    negative and neutral (the absent parameter, another string, an array or
    an object), the listing has no WHERE clause: it returns all the stored
    rows, each once, by date from the latest on. *)
Theorem list_reviews_unfiltered (sentimentFilter : qvalue) (db : database) :
  (forall s, sentimentFilter = QString s ->
             ~ In s ["positive"; "negative"; "neutral"]) ->
  whereClause sentimentFilter = None
  /\ Permutation (list_reviews sentimentFilter db) (reviews db)
  /\ Sorted date_desc (list_reviews sentimentFilter db).
Proof.
  intros Hnot.
  assert (Hw : whereClause sentimentFilter = None).
  { destruct sentimentFilter as [|s| |]; try reflexivity.
    unfold whereClause.
    destruct (JsString.includes ["positive"; "negative"; "neutral"] s) eqn:E;
      [|reflexivity].
    exfalso. apply (Hnot s eq_refl).
    unfold JsString.includes in E. apply existsb_exists in E as (x & Hx & Hs).
    apply String.eqb_eq in Hs. now subst. }
  unfold list_reviews. rewrite Hw.
  split; [reflexivity|].
  split; [apply order_by_date_desc_perm | apply order_by_date_desc_sorted].
Qed.

Lemma list_reviews_unfiltered_witness :
  (forall s, QString "Positive" = QString s ->
             ~ In s ["positive"; "negative"; "neutral"])
  /\ whereClause (QString "Positive") = None
  /\ Permutation (list_reviews (QString "Positive") Sample.eight_months)
       (reviews Sample.eight_months)
  /\ Sorted date_desc (list_reviews (QString "Positive") Sample.eight_months).
Proof.
  assert (H : forall s, QString "Positive" = QString s ->
                        ~ In s ["positive"; "negative"; "neutral"]).
  { intros s [= <-]. simpl. intuition discriminate. }
  split; [exact H|].
  exact (list_reviews_unfiltered (QString "Positive") Sample.eight_months H).
Defined.

Example list_reviews_absent :
  map Review.id (list_reviews QUndefined Sample.eight_months) = [8; 7; 6; 5; 4; 3; 2; 1].
Proof. reflexivity. Qed.

Example list_reviews_negative :
  map Review.id (list_reviews (QString "negative") Sample.eight_months) = [8; 3].
Proof. reflexivity. Qed.

(** ** The monthly trends *)

Lemma ascii_compare_trans a b c :
  Ascii.compare a b = Lt -> Ascii.compare b c = Lt -> Ascii.compare a c = Lt.
Proof.
  unfold Ascii.compare. rewrite !N.compare_lt_iff. apply N.lt_trans.
Qed.

Lemma string_compare_trans : forall a b c,
  String.compare a b = Lt -> String.compare b c = Lt -> String.compare a c = Lt.
Proof.
  induction a as [|x a IH]; intros [|y b] [|z c]; simpl; try congruence.
  destruct (Ascii.compare x y) eqn:Exy; try discriminate.
  - apply Ascii.compare_eq_iff in Exy as ->.
    destruct (Ascii.compare y z); try congruence. apply IH.
  - intros _. destruct (Ascii.compare y z) eqn:Eyz; try discriminate.
    + apply Ascii.compare_eq_iff in Eyz as <-. now rewrite Exy.
    + now rewrite (ascii_compare_trans _ _ _ Exy Eyz).
Qed.

Lemma string_compare_refl s : String.compare s s = Eq.
Proof.
  induction s as [|c s IH]; simpl; [reflexivity|].
  unfold Ascii.compare. now rewrite N.compare_refl.
Qed.

Lemma compare_month_eq a b : Sqlite.compare_month a b = Eq <-> a = b.
Proof.
  destruct a as [x|], b as [y|]; simpl; split; try congruence.
  - now intros ->%String.compare_eq_iff.
  - intros [= ->]. apply string_compare_refl.
Qed.

Lemma compare_month_gt a b :
  Sqlite.compare_month a b = Gt -> Sqlite.compare_month b a = Lt.
Proof.
  destruct a as [x|], b as [y|]; simpl; try congruence.
  rewrite (String.compare_antisym y x). now intros ->.
Qed.

Lemma month_lt_trans a b c : month_lt a b -> month_lt b c -> month_lt a c.
Proof.
  unfold month_lt. destruct a as [x|], b as [y|], c as [z|]; simpl; try congruence.
  apply string_compare_trans.
Qed.

Lemma month_lt_irrefl a : ~ month_lt a a.
Proof. unfold month_lt. now rewrite (proj2 (compare_month_eq a a) eq_refl). Qed.

Lemma insert_month_In m x months :
  In x (insert_month m months) <-> x = m \/ In x months.
Proof.
  induction months as [|y months IH]; simpl; [intuition|].
  destruct (Sqlite.compare_month m y) eqn:E; simpl.
  - apply compare_month_eq in E as ->. intuition.
  - intuition.
  - rewrite IH. intuition.
Qed.

Lemma insert_month_sorted m months :
  StronglySorted month_lt months -> StronglySorted month_lt (insert_month m months).
Proof.
  induction 1 as [|y months Hs IH Hy]; simpl; [repeat constructor|].
  destruct (Sqlite.compare_month m y) eqn:E.
  - now constructor.
  - constructor; [now constructor|].
    constructor; [exact E|].
    eapply Forall_impl; [|exact Hy]. intros z. now apply month_lt_trans.
  - constructor; [exact IH|].
    apply Forall_forall. intros z [->|Hz]%insert_month_In.
    + now apply compare_month_gt.
    + revert z Hz. now apply Forall_forall.
Qed.

Lemma group_keys_In strftime_other rows m :
  In m (group_keys strftime_other rows)
  <-> exists r, In r rows /\ month_of strftime_other (Review.date r) = m.
Proof.
  unfold group_keys. induction rows as [|r rows IH]; simpl.
  - split; [intros [] | intros (? & [] & _)].
  - rewrite insert_month_In, IH. split.
    + intros [->|(r' & Hr' & E)]; eauto.
    + intros (r' & [<-|Hr'] & E); eauto.
Qed.

Lemma group_keys_sorted strftime_other rows :
  StronglySorted month_lt (group_keys strftime_other rows).
Proof.
  unfold group_keys. induction rows as [|r rows IH]; simpl;
    [constructor | now apply insert_month_sorted].
Qed.

Lemma StronglySorted_map {A B} (f : A -> B) (R : B -> B -> Prop) l :
  StronglySorted R (map f l) -> StronglySorted (fun a b => R (f a) (f b)) l.
Proof.
  induction l as [|x l IH]; simpl; [constructor|].
  intros H. inversion H as [|? ? Hs Hall]; subst. constructor; [now apply IH|].
  now rewrite Forall_map in Hall.
Qed.

(** Cutting two texts to the same length keeps their order. *)
Lemma leb_prefix n : forall a b,
  String.leb a b = true ->
  String.leb (JsString.prefix n a) (JsString.prefix n b) = true.
Proof.
  unfold String.leb.
  induction n as [|n IH]; intros a b; [reflexivity|].
  destruct a as [|x a], b as [|y b]; simpl; try reflexivity; try discriminate.
  destruct (Ascii.compare x y); try reflexivity; try discriminate. apply IH.
Qed.

Lemma sum_case_filter s group :
  sum_case s group =
  List.length (filter (fun r => String.eqb (Review.sentiment r) s) group).
Proof.
  unfold sum_case. induction group as [|r group IH]; simpl; [reflexivity|].
  destruct (String.eqb (Review.sentiment r) s); simpl; now rewrite IH.
Qed.

Lemma month_group_count strftime_other rows m :
  List.length
    (filter (fun r => match Sqlite.compare_month
                              (month_of strftime_other (Review.date r)) m with
                      | Eq => true
                      | _ => false
                      end) rows)
  = count_occ month_eq_dec
      (map (fun r => month_of strftime_other (Review.date r)) rows) m.
Proof.
  induction rows as [|r rows IH]; simpl; [reflexivity|].
  destruct (month_eq_dec (month_of strftime_other (Review.date r)) m) as [E|E].
  - rewrite (proj2 (compare_month_eq _ _) E). simpl. now rewrite IH.
  - destruct (Sqlite.compare_month (month_of strftime_other (Review.date r)) m) eqn:C;
      try exact IH.
    now apply compare_month_eq in C.
Qed.

Lemma trends_months strftime_other today db :
  map Trend.month (trends strftime_other today db)
  = group_keys strftime_other (filter (in_window today) (reviews db)).
Proof.
  unfold trends. rewrite map_map. cbn [group_row Trend.month]. apply map_id.
Qed.

(** The answer for any stored texts: the months in ascending order, none
    twice, a month for every review of the window and a count for every
    month; for a review dated with a calendar date the month is not below
    the month of the cutoff. *)
Lemma trends_grouped
  (strftime_other : string -> option string) (today : nat * nat * nat)
  (db : database) :
  let cutoff := Sqlite.cutoff today in
  let window := filter (fun r => String.leb cutoff (Review.date r)) (reviews db) in
  let answer := trends strftime_other today db in
  StronglySorted (fun a b => month_lt (Trend.month a) (Trend.month b)) answer
  /\ (forall m, In m (map Trend.month answer)
                <-> exists r, In r window
                              /\ month_of strftime_other (Review.date r) = m)
  /\ (forall g, In g answer ->
        g = group_row strftime_other window (Trend.month g)
        /\ Trend.count g
           = count_occ month_eq_dec
               (map (fun r => month_of strftime_other (Review.date r)) window)
               (Trend.month g))
  /\ (forall r, In r window ->
        Sqlite.is_calendar_date (Review.date r) = true ->
        In (Some (JsString.prefix 7 (Review.date r))) (map Trend.month answer)
        /\ String.leb (JsString.prefix 7 cutoff)
                      (JsString.prefix 7 (Review.date r)) = true).
Proof.
  intros cutoff window answer.
  assert (Hmonths : map Trend.month answer = group_keys strftime_other window)
    by apply trends_months.
  split; [|split; [|split]].
  - apply StronglySorted_map. rewrite Hmonths. apply group_keys_sorted.
  - intros m. rewrite Hmonths. apply group_keys_In.
  - intros g (m & <- & _)%in_map_iff. cbn [group_row Trend.month Trend.count].
    split; [reflexivity | apply month_group_count].
  - intros r Hr Hcal. split.
    + rewrite Hmonths. apply group_keys_In. exists r. split; [exact Hr|].
      unfold month_of. now rewrite Hcal.
    + apply leb_prefix. now apply filter_In in Hr as [_ Hr].
Qed.

Lemma compare_eqb a b :
  match String.compare a b with Eq => true | _ => false end = String.eqb a b.
Proof.
  destruct (String.eqb_spec a b) as [->|Hne].
  - now rewrite string_compare_refl.
  - destruct (String.compare a b) eqn:E; try reflexivity.
    now apply String.compare_eq_iff in E.
Qed.

(** C9 (amended). For a table whose stored dates are all calendar dates
    written YYYY-MM-DD, the trends query answers with one row per calendar
    month of the stored reviews whose date is not below the day six months
    before today (a cutoff to the day, compared as text, with no upper
    end): the months in ascending order and none of them twice, every row
    with the number of those reviews in its month, one at least. No month
    below the month of the cutoff is in the answer; the month of the
    cutoff is in it when a review is dated in that month on or after the
    cutoff day. *)
Theorem trends_by_month
  (strftime_other : string -> option string) (today : nat * nat * nat)
  (db : database) :
  Forall (fun r => Sqlite.is_calendar_date (Review.date r) = true) (reviews db) ->
  let cutoff := Sqlite.cutoff today in
  let window := filter (fun r => String.leb cutoff (Review.date r)) (reviews db) in
  let answer := trends strftime_other today db in
  StronglySorted (fun a b => month_lt (Trend.month a) (Trend.month b)) answer
  /\ (forall m, In (Some m) (map Trend.month answer)
                <-> exists r, In r window /\ JsString.prefix 7 (Review.date r) = m)
  /\ (forall g, In g answer ->
        exists m,
          Trend.month g = Some m
          /\ String.leb (JsString.prefix 7 cutoff) m = true
          /\ Trend.count g
             = List.length
                 (filter (fun r => String.eqb (JsString.prefix 7 (Review.date r)) m)
                    window)
          /\ 1 <= Trend.count g).
Proof.
  intros Hcal cutoff window answer.
  destruct (trends_grouped strftime_other today db) as (Hsorted & Hin & Hrow & _).
  fold cutoff window answer in Hsorted, Hin, Hrow.
  assert (Hmonth : forall r, In r window ->
            month_of strftime_other (Review.date r)
            = Some (JsString.prefix 7 (Review.date r))).
  { intros r [Hr _]%filter_In. rewrite Forall_forall in Hcal.
    unfold month_of. now rewrite (Hcal r Hr). }
  split; [exact Hsorted|]. split.
  - intros m. rewrite Hin. split; intros (r & Hr & E); exists r; split; auto.
    + rewrite (Hmonth r Hr) in E. now injection E.
    + rewrite (Hmonth r Hr). now f_equal.
  - intros g Hg. destruct (Hrow g Hg) as [Eg _].
    assert (Hm : In (Trend.month g) (map Trend.month answer)) by now apply in_map.
    apply Hin in Hm as (r & Hr & E). rewrite (Hmonth r Hr) in E.
    exists (JsString.prefix 7 (Review.date r)). split; [now symmetry|].
    split; [apply leb_prefix; now apply filter_In in Hr as [_ Hr]|].
    assert (Hcount : Trend.count g
              = List.length
                  (filter (fun r' => String.eqb (JsString.prefix 7 (Review.date r'))
                                       (JsString.prefix 7 (Review.date r))) window)).
    { rewrite Eg. cbn [group_row Trend.count]. rewrite <- E. f_equal.
      apply filter_ext_in. intros r' Hr'. rewrite (Hmonth r' Hr'). cbn [Sqlite.compare_month].
      apply compare_eqb. }
    split; [exact Hcount|]. rewrite Hcount.
    assert (Hr2 : In r (filter (fun r' => String.eqb (JsString.prefix 7 (Review.date r'))
                                            (JsString.prefix 7 (Review.date r))) window)).
    { apply filter_In. split; [exact Hr | apply String.eqb_refl]. }
    destruct (filter _ window); [destruct Hr2 | simpl; lia].
Qed.

Lemma trends_by_month_witness :
  Forall (fun r => Sqlite.is_calendar_date (Review.date r) = true)
    (reviews Sample.eight_months)
  /\ StronglySorted (fun a b => month_lt (Trend.month a) (Trend.month b))
       (trends (fun _ => None) (2025, 9, 15) Sample.eight_months).
Proof.
  assert (H : Forall (fun r => Sqlite.is_calendar_date (Review.date r) = true)
                (reviews Sample.eight_months))
    by (repeat constructor).
  split; [exact H|].
  exact (proj1 (trends_by_month (fun _ => None) (2025, 9, 15) Sample.eight_months H)).
Defined.

(** Stored texts that are no calendar dates get the month the engine reads
    from them: none for one it does not read, and a month before the
    cutoff for a number read as a Julian day. *)
Example trends_other_texts :
  map Trend.month (trends Sample.julian_reader (2025, 9, 15) Sample.odd_dates)
  = [None; Some "2023-02"; Some "2025-09"].
Proof. vm_compute. reflexivity. Qed.

Example cutoff_mid_month : Sqlite.cutoff (2025, 9, 15) = "2025-03-15".
Proof. reflexivity. Qed.

Example cutoff_runs_over : Sqlite.cutoff (2025, 8, 31) = "2025-03-03".
Proof. reflexivity. Qed.

(** C9 as stated fails: with reviews of eight months in a row up to today,
    15 September 2025, the answer has seven months, March among them,
    where the six latest are April to September. *)
Lemma trends_counterexample :
  map Trend.month (trends (fun _ => None) (2025, 9, 15) Sample.eight_months)
  = [Some "2025-03"; Some "2025-04"; Some "2025-05"; Some "2025-06";
     Some "2025-07"; Some "2025-08"; Some "2025-09"].
Proof. vm_compute. reflexivity. Qed.

(** ** The ids of an upload are distinct *)

Lemma of_nat_inj a b : JsString.of_nat a = JsString.of_nat b -> a = b.
Proof.
  unfold JsString.of_nat. intros H.
  apply (f_equal NilEmpty.uint_of_string) in H. rewrite !NilEmpty.usu in H.
  injection H as H. apply (f_equal Nat.of_uint) in H.
  now rewrite !DecimalNat.Unsigned.of_to in H.
Qed.

Lemma row_id_inj a b : row_id a = row_id b -> a = b.
Proof. unfold row_id. simpl. intros [= H]. now apply of_nat_inj. Qed.

Lemma normalize_row_id platform nowISO rowCount row m :
  normalize_row platform nowISO rowCount row = Some m -> id m = row_id rowCount.
Proof.
  unfold normalize_row. destruct (JsString.truthy (row_content row)); [|discriminate].
  now intros [= <-].
Qed.

Lemma on_data_numbered platform clock st row :
  numbered st -> numbered (on_data platform clock st row).
Proof.
  intros (ks & Hids & Hnd & Hle). unfold on_data.
  destruct (normalize_row platform (clock (S (fst st))) (S (fst st)) row) as [m|] eqn:E.
  - exists (ks ++ [S (fst st)]). cbn [fst snd]. split; [|split].
    + rewrite !map_app, Hids. simpl. now rewrite (normalize_row_id _ _ _ _ _ E).
    + apply NoDup_app; [exact Hnd | repeat constructor; intros [] |].
      intros k Hk [<-|[]]. rewrite Forall_forall in Hle. specialize (Hle _ Hk). lia.
    + apply Forall_app. split; [|repeat constructor].
      eapply Forall_impl; [|exact Hle]. simpl. lia.
  - exists ks. cbn [fst snd]. repeat split; auto.
    eapply Forall_impl; [|exact Hle]. simpl. lia.
Qed.

Lemma fold_on_data_numbered platform clock rows : forall st,
  numbered st -> numbered (fold_left (on_data platform clock) rows st).
Proof.
  induction rows as [|row rows IH]; intros st H; simpl; [exact H|].
  now apply IH, on_data_numbered.
Qed.

Lemma ingest_ids_NoDup platform clock rows :
  NoDup (map id (ingest platform clock rows)).
Proof.
  destruct (fold_on_data_numbered platform clock rows (0, []))
    as (ks & Hids & Hnd & _).
  - exists []. repeat split; constructor.
  - unfold ingest. rewrite Hids.
    apply Finite.Injective_map_NoDup; [|exact Hnd].
    intros a b. apply row_id_inj.
Qed.

Lemma slice_NoDup {A B} (f : A -> B) i j (l : list A) :
  NoDup (map f l) -> NoDup (map f (slice i j l)).
Proof.
  intros H. unfold slice. rewrite <- firstn_map, <- skipn_map.
  rewrite <- (firstn_skipn i (map f l)) in H. apply NoDup_app_remove_l in H.
  rewrite <- (firstn_skipn (j - i) (skipn i (map f l))) in H.
  now apply NoDup_app_remove_r in H.
Qed.

(** Every batch of an upload has distinct ids, as C1 supposes. *)
Lemma batches_of_ingest_NoDup platform clock rows :
  Forall (fun b => NoDup (map id b)) (batches (ingest platform clock rows)).
Proof.
  unfold batches. apply Forall_map, Forall_forall. intros k _.
  apply slice_NoDup, ingest_ids_NoDup.
Qed.

(** Sixteen reviews take two requests with one pause of 12 seconds between
    them. *)
Example classify_all_16 :
  let reviews16 := map (fun n => Sample.review n "kopi enak") (seq 1 16) in
  let run := classify_all (Some "key") Sample.careless reviews16 [] in
  snd run = [Generate (map row_id (seq 1 15)); Sleep 12000; Generate [row_id 16]]
  /\ map mentionId (fst run) = map row_id (seq 1 16).
Proof. vm_compute. split; reflexivity. Qed.

(* ===================================================================== *)
(** * Further properties *)
(* ===================================================================== *)

(** ** Code fences in the model's text *)

Lemma replace_global_step matcher c s' :
  replace_global matcher (String c s') =
  match matcher (String c s') with
  | Some rest =>
      if String.length rest <? S (String.length s')
      then replace_global matcher rest
      else String c (replace_global matcher s')
  | None => String c (replace_global matcher s')
  end.
Proof.
  rewrite replace_global_equation_2. unfold replace_global_unfold_clause_2.
  destruct (matcher (String c s')) as [rest|]; [|reflexivity].
  unfold replace_global_unfold_clause_2_clause_1.
  destruct (lt_dec (String.length rest) (S (String.length s'))) as [H|H].
  - apply Nat.ltb_lt in H. now rewrite H.
  - apply Nat.ltb_nlt in H. now rewrite H.
Qed.

Lemma strip_prefix_length pat : forall s rest,
  strip_prefix pat s = Some rest ->
  String.length s = String.length pat + String.length rest.
Proof.
  induction pat as [|p pat IH]; intros s rest; simpl.
  - now intros [= ->].
  - destruct s as [|c s]; [discriminate|].
    destruct (Ascii.eqb p c); [|discriminate].
    intros H. simpl. now rewrite (IH _ _ H).
Qed.

Lemma strip_prefix_matches_fences : matches_fences (strip_prefix "```").
Proof.
  split.
  - intros s rest H. unfold starts_with. rewrite H. split; [reflexivity|].
    apply strip_prefix_length in H. simpl in H. lia.
  - intros s. unfold starts_with. now destruct (strip_prefix "```" s).
Qed.

Lemma skip_newline_length s : String.length (skip_newline s) <= String.length s.
Proof.
  destruct s as [|c s]; simpl; [lia|]. destruct (Ascii.eqb c "010"); simpl; lia.
Qed.

Lemma fence_match_matches_fences : matches_fences fence_match.
Proof.
  split.
  - intros s rest. unfold fence_match, starts_with.
    destruct (strip_prefix "```" s) as [r|] eqn:E; [|discriminate].
    apply strip_prefix_length in E. simpl in E.
    destruct (strip_prefix "json" r) as [r'|] eqn:E'; intros [= <-];
      (split; [reflexivity|]).
    + apply strip_prefix_length in E'. simpl in E'.
      pose proof (skip_newline_length r'). lia.
    + pose proof (skip_newline_length r). lia.
  - intros s. unfold fence_match, starts_with.
    destruct (strip_prefix "```" s) as [r|]; [|discriminate].
    now destruct (strip_prefix "json" r).
Qed.

(** Where no match is dropped, the first character stays. *)
Lemma replace_global_keep matcher c s' :
  matches_fences matcher ->
  starts_with "```" (String c s') = false ->
  replace_global matcher (String c s') = String c (replace_global matcher s').
Proof.
  intros [Hm _] Hs. rewrite replace_global_step.
  destruct (matcher (String c s')) as [rest|] eqn:E; [|reflexivity].
  destruct (Hm _ _ E) as [Hf _]. congruence.
Qed.

Lemma starts_with_fence_inv c s :
  starts_with "```" (String c s) = true -> c = "`"%char /\ starts_with "``" s = true.
Proof.
  unfold starts_with. cbn [strip_prefix].
  destruct (Ascii.eqb_spec "`" c) as [<-|]; [|discriminate].
  now destruct (strip_prefix "``" s).
Qed.

Lemma starts_with_fence_cons s :
  starts_with "```" (String "`" s) = starts_with "``" s.
Proof. reflexivity. Qed.

Lemma starts_with_two_cons s :
  starts_with "``" (String "`" s) = starts_with "`" s.
Proof. reflexivity. Qed.

Lemma starts_with_other pat c s :
  starts_with (String "`" pat) (String c s) = true -> c = "`"%char.
Proof.
  unfold starts_with. cbn [strip_prefix].
  now destruct (Ascii.eqb_spec "`" c) as [<-|].
Qed.

Lemma starts_with_weaken s :
  starts_with "```" s = true -> starts_with "``" s = true.
Proof.
  destruct s as [|c s]; [discriminate|].
  intros [-> H]%starts_with_fence_inv. rewrite starts_with_two_cons.
  destruct s as [|d s]; [discriminate|].
  pose proof (starts_with_other _ _ _ H) as ->. reflexivity.
Qed.

(** A text that starts with no backtick is cleaned to one that starts with
    none, and likewise for two backticks. *)
Lemma replace_global_one matcher s :
  matches_fences matcher ->
  starts_with "`" s = false -> starts_with "`" (replace_global matcher s) = false.
Proof.
  intros Hm H. destruct s as [|c s]; [reflexivity|].
  rewrite replace_global_keep; [| exact Hm |].
  - unfold starts_with in *. cbn [strip_prefix] in *.
    now destruct (Ascii.eqb "`" c).
  - destruct (starts_with "```" (String c s)) eqn:E; [|reflexivity].
    apply starts_with_fence_inv in E as [-> _]. discriminate.
Qed.

Lemma replace_global_two matcher s :
  matches_fences matcher ->
  starts_with "``" s = false -> starts_with "``" (replace_global matcher s) = false.
Proof.
  intros Hm H. destruct s as [|c s]; [reflexivity|].
  rewrite replace_global_keep; [| exact Hm |].
  - destruct (starts_with "``" (String c (replace_global matcher s))) eqn:E;
      [|reflexivity].
    pose proof (starts_with_other _ _ _ E) as ->.
    rewrite starts_with_two_cons in *.
    now rewrite (replace_global_one matcher s Hm H) in E.
  - destruct (starts_with "```" (String c s)) eqn:E; [|reflexivity].
    apply starts_with_weaken in E. congruence.
Qed.

(** After the replacement no code fence is left. *)
Lemma replace_global_no_fence matcher s :
  matches_fences matcher -> has_fence (replace_global matcher s) = false.
Proof.
  intros Hm.
  remember (String.length s) as n eqn:Hn. revert s Hn.
  induction n as [n IH] using lt_wf_ind. intros s ->.
  destruct s as [|c s]; [reflexivity|].
  rewrite replace_global_step.
  destruct (matcher (String c s)) as [rest|] eqn:E.
  - destruct (proj1 Hm _ _ E) as [_ Hlt].
    replace (String.length rest <? S (String.length s)) with true
      by (symmetry; now apply Nat.ltb_lt).
    now apply (IH (String.length rest)).
  - cbn [has_fence]. rewrite (IH (String.length s)) by (simpl; auto).
    rewrite orb_false_r.
    destruct (starts_with "```" (String c (replace_global matcher s))) eqn:F;
      [|reflexivity].
    apply starts_with_fence_inv in F as [-> F].
    assert (Hs : starts_with "```" (String "`" s) = false).
    { destruct (starts_with "```" (String "`" s)) eqn:G; [|reflexivity].
      now apply (proj2 Hm) in G. }
    rewrite starts_with_fence_cons in Hs.
    now rewrite (replace_global_two matcher s Hm Hs) in F.
Qed.

(** A text with no code fence is left as it is. *)
Lemma replace_global_unfenced matcher s :
  matches_fences matcher -> has_fence s = false -> replace_global matcher s = s.
Proof.
  intros Hm. induction s as [|c s IH]; [reflexivity|].
  cbn [has_fence]. intros [Hs Hrest]%orb_false_iff.
  rewrite replace_global_keep by assumption. now rewrite IH.
Qed.

Lemma trimStart_suffix s : exists p, s = String.append p (JsString.trimStart s).
Proof.
  induction s as [|c s [p IH]]; [now exists ""|]. simpl.
  destruct (JsString.is_space c).
  - exists (String c p). simpl. now rewrite <- IH.
  - now exists "".
Qed.

Lemma trimEnd_prefix s : exists t, s = String.append (JsString.trimEnd s) t.
Proof.
  induction s as [|c s [t IH]]; [now exists ""|]. simpl.
  destruct (JsString.trimEnd s) as [|d kept] eqn:E.
  - destruct (JsString.is_space c).
    + now exists (String c s).
    + exists t. simpl. now rewrite IH at 1.
  - exists t. simpl. now rewrite IH at 1.
Qed.

Lemma strip_prefix_append pat : forall s t rest,
  strip_prefix pat s = Some rest ->
  strip_prefix pat (String.append s t) = Some (String.append rest t).
Proof.
  induction pat as [|p pat IH]; intros s t rest; simpl.
  - now intros [= ->].
  - destruct s as [|c s]; [discriminate|]. simpl.
    destruct (Ascii.eqb p c); [apply IH | discriminate].
Qed.

Lemma has_fence_append_l s t :
  has_fence s = true -> has_fence (String.append s t) = true.
Proof.
  induction s as [|c s IH]; [discriminate|].
  cbn [has_fence String.append]. fold (String.append s t).
  intros [H|H]%orb_true_iff; apply orb_true_iff; [left | right; now apply IH].
  unfold starts_with in *.
  destruct (strip_prefix "```" (String c s)) as [rest|] eqn:E; [|discriminate].
  change (String c (String.append s t)) with (String.append (String c s) t).
  now rewrite (strip_prefix_append _ _ t _ E).
Qed.

Lemma has_fence_append_r p s :
  has_fence s = true -> has_fence (String.append p s) = true.
Proof.
  intros H. induction p as [|c p IH]; [exact H|].
  cbn [String.append has_fence]. fold (String.append p s).
  rewrite IH. apply orb_true_r.
Qed.

Lemma trim_no_fence s : has_fence s = false -> has_fence (JsString.trim s) = false.
Proof.
  intros H. unfold JsString.trim.
  destruct (has_fence (JsString.trimEnd (JsString.trimStart s))) eqn:E; [|reflexivity].
  destruct (trimEnd_prefix (JsString.trimStart s)) as [t Ht].
  destruct (trimStart_suffix s) as [p Hp].
  apply (has_fence_append_l _ t) in E. rewrite <- Ht in E.
  apply (has_fence_append_r p) in E. rewrite <- Hp in E. congruence.
Qed.

(** X1. The text [analyzeBatch] hands to [JSON.parse] holds no code fence,
    whatever the model wrote; and a text that holds none is only trimmed. *)
Theorem cleanText_no_fence (text : string) :
  has_fence (cleanText text) = false
  /\ (has_fence text = false -> cleanText text = JsString.trim text).
Proof.
  unfold cleanText. split.
  - apply trim_no_fence, replace_global_no_fence, fence_match_matches_fences.
  - intros H. now rewrite (replace_global_unfenced _ _ fence_match_matches_fences H).
Qed.

(** X2. [safeJSONParse] hands to [JSON.parse] a text with no code fence;
    for a text that is empty or white space it returns the fallback without
    parsing, and in every case it returns the fallback or the value parsed
    from the cleaned text. *)
Theorem safeJSONParse_fallback
  (JSON_parse : string -> option json) (text : string) (fallback : json) :
  has_fence (cleaned text) = false
  /\ (JsString.trim text = "" -> safeJSONParse JSON_parse text fallback = fallback)
  /\ (safeJSONParse JSON_parse text fallback = fallback
      \/ (JsString.trim text <> ""
          /\ JSON_parse (cleaned text)
             = Some (safeJSONParse JSON_parse text fallback))).
Proof.
  split; [|split].
  - unfold cleaned.
    apply trim_no_fence, replace_global_no_fence, strip_prefix_matches_fences.
  - unfold safeJSONParse. now intros ->.
  - unfold safeJSONParse.
    destruct (JsString.truthy (JsString.trim text)) eqn:T; [|now left].
    apply truthy_true_iff in T.
    destruct (JSON_parse (cleaned text)); [right | left]; auto.
Qed.

Example cleanText_fenced :
  cleanText (String.append "```json" (String "010" "[1]```")) = "[1]".
Proof. reflexivity. Qed.

(** ** The client's URL builder *)

Lemma strip_trailing_slashes_end s :
  ends_with_slash (strip_trailing_slashes s) = false.
Proof.
  induction s as [|c s IH]; [reflexivity|]. simpl.
  destruct (strip_trailing_slashes s) as [|d kept].
  - destruct (Ascii.eqb c "/") eqn:E; [reflexivity | exact E].
  - exact IH.
Qed.

Lemma normalizedApiBaseUrl_end raw :
  ends_with_slash (normalizedApiBaseUrl raw) = false.
Proof.
  unfold normalizedApiBaseUrl. destruct raw as [raw|]; [|reflexivity].
  destruct (JsString.truthy (JsString.trim raw)); [|reflexivity].
  apply strip_trailing_slashes_end.
Qed.

(** X3. [buildApiUrl] throws exactly for a path that does not start with a
    slash. Otherwise it returns the normalized base followed by the path:
    the base does not end with a slash, so the two meet in the one slash of
    the path; and for an absent, empty or blank base it returns the path. *)
Theorem buildApiUrl_join (rawApiBaseUrl : option string) (path : string) :
  match buildApiUrl rawApiBaseUrl path with
  | None => starts_with_slash path = false
  | Some url =>
      starts_with_slash path = true
      /\ url = String.append (normalizedApiBaseUrl rawApiBaseUrl) path
      /\ ends_with_slash (normalizedApiBaseUrl rawApiBaseUrl) = false
      /\ ((forall raw, rawApiBaseUrl = Some raw -> JsString.trim raw = "") ->
          url = path)
  end.
Proof.
  unfold buildApiUrl. destruct (starts_with_slash path); [|reflexivity].
  split; [reflexivity|]. split; [|split].
  - destruct (normalizedApiBaseUrl rawApiBaseUrl); reflexivity.
  - apply normalizedApiBaseUrl_end.
  - intros Hblank.
    assert (E : normalizedApiBaseUrl rawApiBaseUrl = "").
    { destruct rawApiBaseUrl as [raw|]; [|reflexivity]. simpl.
      now rewrite (Hblank raw eq_refl). }
    now rewrite E.
Qed.

Example buildApiUrl_trailing :
  buildApiUrl (Some " https://api.example.com// ") "/api/data"
  = Some "https://api.example.com/api/data".
Proof. reflexivity. Qed.

(** ** The ingestion *)

Lemma fold_on_data platform clock rows : forall n mentions,
  snd (fold_left (on_data platform clock) rows (n, mentions))
  = mentions ++ flat_map (kept_row platform clock)
                  (combine (seq (S n) (List.length rows)) rows).
Proof.
  induction rows as [|row rows IH]; intros n mentions; simpl.
  - now rewrite app_nil_r.
  - unfold on_data at 2. cbn [fst snd]. unfold kept_row at 1. cbn [fst snd].
    destruct (normalize_row platform (clock (S n)) (S n) row) as [m|];
      rewrite IH; [rewrite <- app_assoc|]; reflexivity.
Qed.

Lemma ingest_flat_map platform clock rows :
  ingest platform clock rows
  = flat_map (kept_row platform clock) (combine (seq 1 (List.length rows)) rows).
Proof. unfold ingest. now rewrite fold_on_data. Qed.

(** X4. The records of an upload are those of its rows with content, in the
    order of the rows; the number in a record's id is the place of its row
    among all the rows of the upload, from 1, rows without content
    counted. *)
Theorem ingest_indexed (platform : qvalue) (clock : nat -> string)
  (rows : list RawRow) :
  ingest platform clock rows
  = flat_map (kept_row platform clock) (combine (seq 1 (List.length rows)) rows).
Proof. apply ingest_flat_map. Qed.

Lemma has_char_before sep s : has_char sep (JsString.before sep s) = false.
Proof.
  induction s as [|c s IH]; [reflexivity|]. simpl.
  destruct (Ascii.eqb c sep) eqn:E; [reflexivity|]. simpl. now rewrite E.
Qed.

Lemma has_char_before_other sep sep' s :
  has_char sep s = false -> has_char sep (JsString.before sep' s) = false.
Proof.
  induction s as [|c s IH]; [reflexivity|]. simpl.
  intros [Hc Hs]%orb_false_iff.
  destruct (Ascii.eqb c sep'); [reflexivity|]. simpl. now rewrite Hc, IH.
Qed.

Lemma has_char_prefix sep n : forall s,
  has_char sep s = false -> has_char sep (JsString.prefix n s) = false.
Proof.
  induction n as [|n IH]; intros s; [reflexivity|].
  destruct s as [|c s]; [reflexivity|]. simpl.
  intros [Hc Hs]%orb_false_iff. now rewrite Hc, IH.
Qed.

Lemma prefix_prefix n : forall s,
  JsString.prefix n (JsString.prefix n s) = JsString.prefix n s.
Proof.
  induction n as [|n IH]; intros s; [reflexivity|].
  destruct s as [|c s]; [reflexivity|]. simpl. now rewrite IH.
Qed.

Lemma matches_ymd_prefix s : matches_ymd (JsString.prefix 10 s) = matches_ymd s.
Proof.
  do 10 (destruct s as [|? s]; [reflexivity|]). reflexivity.
Qed.

Lemma normalizeDate_no_separator rawDate :
  has_char "T" (normalizeDate rawDate) = false
  /\ has_char " " (normalizeDate rawDate) = false.
Proof.
  unfold normalizeDate. split.
  - destruct (matches_ymd _); [apply has_char_prefix|];
      apply has_char_before_other, has_char_before.
  - destruct (matches_ymd _); [apply has_char_prefix|]; apply has_char_before.
Qed.

(** X5. A normalized date holds neither a 'T' nor a space, and normalizing
    it again leaves it as it is. *)
Theorem normalizeDate_normal (rawDate : string) :
  has_char "T" (normalizeDate rawDate) = false
  /\ has_char " " (normalizeDate rawDate) = false
  /\ normalizeDate (normalizeDate rawDate) = normalizeDate rawDate.
Proof.
  destruct (normalizeDate_no_separator rawDate) as [HT HS].
  split; [exact HT|]. split; [exact HS|].
  unfold normalizeDate at 1.
  rewrite (before_absent "T" _ HT), (before_absent " " _ HS).
  unfold normalizeDate.
  destruct (matches_ymd (JsString.before " " (JsString.before "T" rawDate))) eqn:E.
  - now rewrite matches_ymd_prefix, E, prefix_prefix.
  - now rewrite E.
Qed.

(** X6. Every record of an upload has a content that is not empty, the
    platform of the upload as its source, the id of one of the rows, and a
    date with neither a 'T' nor a space. *)
Theorem ingest_mentions (platform : qvalue) (clock : nat -> string)
  (rows : list RawRow) (m : Mention) :
  In m (ingest platform clock rows) ->
  content m <> ""
  /\ source m = platform
  /\ (exists k, 1 <= k <= List.length rows /\ id m = row_id k)
  /\ has_char "T" (date m) = false
  /\ has_char " " (date m) = false.
Proof.
  rewrite ingest_flat_map. intros ((k & row) & Hin & Hm)%in_flat_map.
  unfold kept_row in Hm. cbn [fst snd] in Hm.
  destruct (normalize_row platform (clock k) k row) as [m'|] eqn:E; [|destruct Hm].
  destruct Hm as [<-|[]]. unfold normalize_row in E.
  destruct (JsString.truthy (row_content row)) eqn:T; [|discriminate].
  injection E as <-. cbn [content source id date].
  split; [now apply truthy_true_iff|]. split; [reflexivity|].
  split.
  - exists k. split; [|reflexivity].
    apply in_combine_l, in_seq in Hin. lia.
  - apply normalizeDate_no_separator.
Qed.

Lemma ingest_mentions_witness :
  In (mkMention "csv-row-2" (QString "CSV") "oke" "2025-09-17")
     (ingest (QString "CSV") (fun _ => "2025-09-20T08:00:00.000Z")
        [[("content", ""); ("date", "2025-09-16")];
         [("content", "oke"); ("date", "2025-09-17 10:00")]])
  /\ content (mkMention "csv-row-2" (QString "CSV") "oke" "2025-09-17") <> "".
Proof.
  assert (H : In (mkMention "csv-row-2" (QString "CSV") "oke" "2025-09-17")
                (ingest (QString "CSV") (fun _ => "2025-09-20T08:00:00.000Z")
                   [[("content", ""); ("date", "2025-09-16")];
                    [("content", "oke"); ("date", "2025-09-17 10:00")]]))
    by (left; reflexivity).
  split; [exact H|].
  exact (proj1 (ingest_mentions _ _ _ _ H)).
Defined.

(** ** The pace and the number of the requests *)

Lemma paced_app events : forall b events',
  paced b (events ++ events')
  = paced b events && paced (ends_with_request b events) events'.
Proof.
  induction events as [|[ids|ms] events IH]; intros b events'; simpl.
  - reflexivity.
  - now rewrite IH, andb_assoc.
  - now rewrite IH, andb_assoc.
Qed.

Lemma ends_with_request_app events : forall b events',
  ends_with_request b (events ++ events')
  = ends_with_request (ends_with_request b events) events'.
Proof.
  induction events as [|[ids|ms] events IH]; intros b events'; simpl; auto.
Qed.

Lemma waitTime_lower retryCount : (15000 <= waitTime retryCount)%Z.
Proof.
  unfold waitTime.
  pose proof (Z.pow_pos_nonneg 2 (Z.of_nat retryCount)) as H.
  lia.
Qed.

Lemma attempts_paced ids retries : forall retryCount,
  paced false (attempts ids retryCount retries) = true
  /\ ends_with_request false (attempts ids retryCount retries) = true
  /\ calls (attempts ids retryCount retries) = S retries.
Proof.
  induction retries as [|n IH]; intros retryCount; cbn [attempts].
  - repeat split.
  - destruct (IH (S retryCount)) as (Hp & He & Hc).
    cbn [paced ends_with_request negb andb]. rewrite Hp, He.
    pose proof (waitTime_lower retryCount).
    replace (12000 <=? waitTime retryCount)%Z with true
      by (symmetry; apply Z.leb_le; lia).
    repeat split. rewrite <- Hc. unfold calls. reflexivity.
Qed.

Lemma classify_all_runs apiKey llm mentions log :
  snd (classify_all apiKey llm mentions log)
  = snd (dispatch apiKey llm (batches mentions) log).
Proof.
  unfold classify_all.
  pose proof (classify_from_dispatch apiKey llm mentions
                (totalBatches (List.length mentions)) 0 [] log eq_refl) as Hrun.
  change (0 * BATCH_SIZE) with 0 in Hrun at 1. cbv zeta in Hrun.
  now rewrite Hrun.
Qed.

(** The events of one call of [analyzeBatch]: none without a key, and with
    a key the request for the batch, repeated three times at most after
    pauses of 15, 30 and 60 seconds. *)
Lemma analyzeBatch_run apiKey llm mentions log :
  exists run,
    snd (analyzeBatch apiKey llm mentions 0 log) = log ++ run
    /\ (if has_key apiKey
        then exists retries,
               retries <= 3
               /\ run = retry_events (map id mentions)
                          (firstn retries [15000; 30000; 60000]%Z)
        else run = []).
Proof.
  destruct (has_key apiKey) eqn:Hkey.
  - pose proof (leading_rate_limits_le llm (calls log) 3) as Hle.
    rewrite (analyzeBatch_attempts apiKey llm mentions Hkey
               (leading_rate_limits llm (calls log) 3) 0 log Hle
               (leading_rate_limits_all llm (calls log) 3)
               (leading_rate_limits_stop llm (calls log) 3)).
    eexists. split; [reflexivity|].
    exists (leading_rate_limits llm (calls log) 3). split; [exact Hle|].
    now apply attempts_retry_events.
  - exists []. rewrite analyzeBatch_step, Hkey. cbn [snd].
    now rewrite app_nil_r.
Qed.

Lemma retry_events_paced ids retries :
  retries <= 3 ->
  paced false (retry_events ids (firstn retries [15000; 30000; 60000]%Z)) = true
  /\ 1 <= calls (retry_events ids (firstn retries [15000; 30000; 60000]%Z)) <= 4.
Proof.
  intros H.
  destruct retries as [|[|[|[|n]]]]; [| | | | lia];
    (split; [reflexivity | unfold calls; simpl; lia]).
Qed.

Lemma dispatch_runs apiKey llm bs : forall log,
  exists runs,
    snd (dispatch apiKey llm bs log) = log ++ join_runs runs
    /\ Forall2 (fun b run =>
                  if has_key apiKey
                  then exists retries,
                         retries <= 3
                         /\ run = retry_events (map id b)
                                    (firstn retries [15000; 30000; 60000]%Z)
                  else run = [])
         bs runs.
Proof.
  induction bs as [|b rest IH]; intros log; cbn [dispatch snd].
  - exists []. split; [now rewrite app_nil_r | constructor].
  - destruct (analyzeBatch_run apiKey llm b log) as (run & E1 & K1). rewrite E1.
    destruct rest as [|b' rest'].
    + exists [run]. cbn [dispatch snd join_runs]. rewrite app_nil_r.
      split; [reflexivity|]. constructor; [exact K1 | constructor].
    + destruct (IH ((log ++ run) ++ [Sleep 12000])) as (runs & E2 & K2).
      rewrite E2. exists (run :: runs). split.
      * inversion K2; subst. cbn [join_runs].
        now rewrite <- !app_assoc.
      * constructor; [exact K1 | exact K2].
Qed.

Lemma join_runs_paced runs :
  Forall (fun run => paced false run = true) runs ->
  paced false (join_runs runs) = true.
Proof.
  induction 1 as [|run rest Hrun Hrest IH]; [reflexivity|].
  cbn [join_runs]. rewrite paced_app, Hrun. cbn [andb].
  destruct rest as [|run' rest']; [reflexivity|].
  cbn [paced]. exact IH.
Qed.

(** X7. The requests of an upload keep the pace. What the batch loop adds
    to the log is, batch after batch, the events of the batch with a pause
    of 12 seconds between two batches: with a key the events of a batch
    are its request, repeated three times at most after pauses of 15, 30
    and 60 seconds, so one to four requests for each batch; without a key
    a batch has no event. No request follows another one directly and
    every pause lasts 12 seconds at least. *)
Theorem classify_all_paced
  (apiKey : option string) (llm : nat -> outcome) (mentions : list Mention)
  (log : list event) :
  exists runs,
    snd (classify_all apiKey llm mentions log) = log ++ join_runs runs
    /\ paced false (join_runs runs) = true
    /\ Forall2 (fun b run =>
                  if has_key apiKey
                  then 1 <= calls run <= 4
                       /\ exists retries,
                            retries <= 3
                            /\ run = retry_events (map id b)
                                       (firstn retries [15000; 30000; 60000]%Z)
                  else run = [])
         (batches mentions) runs.
Proof.
  rewrite classify_all_runs.
  destruct (dispatch_runs apiKey llm (batches mentions) log) as (runs & E & K).
  exists runs. split; [exact E|].
  assert (Hpaced : Forall (fun run => paced false run = true) runs).
  { clear E. induction K as [|b run bs runs Hb _ IH]; constructor; [|exact IH].
    destruct (has_key apiKey); [|now subst].
    destruct Hb as (retries & Hle & ->). now apply retry_events_paced. }
  split; [now apply join_runs_paced|].
  clear E Hpaced. induction K as [|b run bs runs Hb _ IH]; constructor; [|exact IH].
  destruct (has_key apiKey); [|exact Hb].
  destruct Hb as (retries & Hle & ->).
  split; [now apply retry_events_paced | eauto].
Qed.

(** ** Uploads without a key, and with a model that is out of order *)

Lemma classify_all_dispatch apiKey llm mentions log :
  classify_all apiKey llm mentions log
  = (List.concat (fst (dispatch apiKey llm (batches mentions) log)),
     snd (dispatch apiKey llm (batches mentions) log)).
Proof.
  unfold classify_all.
  apply (classify_from_dispatch apiKey llm mentions
           (totalBatches (List.length mentions)) 0 [] log eq_refl).
Qed.

Lemma dispatch_without_key apiKey llm bs :
  has_key apiKey = false ->
  forall log,
    dispatch apiKey llm bs log
    = (map (map nokey_result) bs,
       log ++ repeat (Sleep 12000) (pred (List.length bs))).
Proof.
  intros Hkey. induction bs as [|b rest IH]; intros log; cbn [dispatch].
  - simpl. now rewrite app_nil_r.
  - rewrite analyzeBatch_step, Hkey. cbn [fst snd]. rewrite IH. cbn [fst snd map].
    f_equal. destruct rest as [|b' rest']; simpl.
    + now rewrite app_nil_r.
    + now rewrite <- app_assoc.
Qed.

(** X8. Without an API key the batcher makes no request, gives every
    review the result neutral, General with score 0, and still pauses 12
    seconds after every batch but the last. *)
Theorem classify_all_without_key
  (apiKey : option string) (llm : nat -> outcome) (mentions : list Mention)
  (log : list event) :
  has_key apiKey = false ->
  classify_all apiKey llm mentions log
  = (map (fun m => mkAnalysis (id m) neutral 0%float "General") mentions,
     log ++ repeat (Sleep 12000) (pred (totalBatches (List.length mentions)))).
Proof.
  intros Hkey. rewrite classify_all_dispatch, (dispatch_without_key _ _ _ Hkey).
  cbn [fst snd]. rewrite length_batches. f_equal.
  rewrite <- concat_map, concat_batches. reflexivity.
Qed.

Lemma classify_all_without_key_witness :
  has_key None = false
  /\ classify_all None Sample.careless
       (map (fun n => Sample.review n "kopi enak") (seq 1 31)) []
     = (map (fun m => mkAnalysis (id m) neutral 0%float "General")
          (map (fun n => Sample.review n "kopi enak") (seq 1 31)),
        [] ++ repeat (Sleep 12000)
                (pred (totalBatches
                         (List.length
                            (map (fun n => Sample.review n "kopi enak") (seq 1 31)))))).
Proof.
  split; [reflexivity|].
  exact (classify_all_without_key None Sample.careless
           (map (fun n => Sample.review n "kopi enak") (seq 1 31)) [] eq_refl).
Defined.

Lemma merge_response_unusable mentions parsed :
  unusable (Responds parsed) = true ->
  merge_response mentions parsed = map default_result mentions.
Proof. destruct parsed as [[| | | |items|]|]; try reflexivity; discriminate. Qed.

Lemma analyzeBatch_unusable apiKey llm mentions retryCount log :
  has_key apiKey = true ->
  (forall k, unusable (llm k) = true) ->
  fst (analyzeBatch apiKey llm mentions retryCount log) = map default_result mentions.
Proof.
  intros Hkey Hout.
  pose proof (analyzeBatch_last_answer apiKey llm mentions retryCount log Hkey) as H.
  cbv zeta in H.
  pose proof (Hout (pred (calls (snd (analyzeBatch apiKey llm mentions retryCount log)))))
    as Hu.
  destruct (llm (pred (calls (snd (analyzeBatch apiKey llm mentions retryCount log)))))
    as [status|parsed]; [exact H|].
  rewrite H. now apply merge_response_unusable.
Qed.

Lemma dispatch_unusable apiKey llm bs :
  has_key apiKey = true ->
  (forall k, unusable (llm k) = true) ->
  forall log, fst (dispatch apiKey llm bs log) = map (map default_result) bs.
Proof.
  intros Hkey Hout. induction bs as [|b rest IH]; intros log; cbn [dispatch fst map].
  - reflexivity.
  - now rewrite analyzeBatch_unusable, IH.
Qed.

Lemma find_analysis_fields (f : Mention -> SentimentAnalysis) mentions m :
  (forall m', mentionId (f m') = id m') ->
  In m mentions ->
  exists m', find_analysis (map f mentions) m = Some (f m').
Proof.
  intros Hid Hin. unfold find_analysis.
  destruct (find (fun a => String.eqb (mentionId a) (id m)) (map f mentions))
    as [a|] eqn:E.
  - apply find_some in E as [(m' & <- & _)%in_map_iff _]. now exists m'.
  - exfalso. pose proof (find_none _ _ E (f m) (in_map f _ _ Hin)) as H.
    cbv beta in H. rewrite Hid, String.eqb_refl in H. discriminate.
Qed.

(** X9. When every request to the model throws or brings a text that does
    not parse to an array, an upload with a key still ends: every review
    gets the default result, and the item made for it carries neutral,
    General and the score 0.5. *)
Theorem classify_all_outage
  (apiKey : option string) (llm : nat -> outcome) (mentions : list Mention)
  (log : list event) :
  has_key apiKey = true ->
  (forall k, unusable (llm k) = true) ->
  let analyses := fst (classify_all apiKey llm mentions log) in
  analyses = map default_result mentions
  /\ map (to_store analyses) mentions
     = map (item_with "neutral" "General" 0.5%float) mentions.
Proof.
  intros Hkey Hout analyses.
  assert (Ha : analyses = map default_result mentions).
  { unfold analyses. rewrite classify_all_dispatch. cbn [fst].
    rewrite (dispatch_unusable _ _ _ Hkey Hout), <- concat_map, concat_batches.
    reflexivity. }
  split; [exact Ha|]. rewrite Ha.
  apply map_ext_in. intros m Hm.
  destruct (find_analysis_fields default_result mentions m (fun _ => eq_refl) Hm)
    as [m' E].
  unfold to_store. rewrite E. reflexivity.
Qed.

Lemma classify_all_outage_witness :
  has_key (Some "key") = true
  /\ (forall k, unusable (Sample.rate_limited k) = true)
  /\ fst (classify_all (Some "key") Sample.rate_limited Sample.batch [])
     = map default_result Sample.batch.
Proof.
  split; [reflexivity|]. split; [intros k; reflexivity|].
  exact (proj1 (classify_all_outage (Some "key") Sample.rate_limited Sample.batch []
                  eq_refl (fun k => eq_refl))).
Defined.

(** ** What an upload stores *)

Lemma find_app_skip {A} (f : A -> bool) l l' :
  Forall (fun x => f x = false) l -> find f (l ++ l') = find f l'.
Proof.
  induction 1 as [|x l Hx _ IH]; simpl; [reflexivity | now rewrite Hx].
Qed.

(** With distinct ids, the results being those of the reviews in their
    order, each review finds its own result. *)
Lemma to_store_aligned : forall mentions before analyses,
  map mentionId analyses = map id mentions ->
  NoDup (map id mentions) ->
  Forall (fun a => ~ In (mentionId a) (map id mentions)) before ->
  map (to_store (before ++ analyses)) mentions
  = map (fun ma => item_of (fst ma) (snd ma)) (combine mentions analyses).
Proof.
  induction mentions as [|m mentions IH]; intros before analyses Hids Hnd Hbefore;
    [reflexivity|].
  destruct analyses as [|a analyses]; [discriminate|].
  injection Hids as Ha Hids. inversion Hnd as [|? ? Hm Hnd']; subst.
  cbn [map combine fst snd]. f_equal.
  - unfold to_store, find_analysis. rewrite find_app_skip.
    + cbn [find]. rewrite Ha, String.eqb_refl. unfold item_of. cbn [option_map].
      f_equal. now destruct (sentiment a).
    + eapply Forall_impl; [|exact Hbefore]. intros a' Hnot. cbv beta.
      apply String.eqb_neq. intros E. apply Hnot. left. now symmetry.
  - replace (before ++ a :: analyses) with ((before ++ [a]) ++ analyses)
      by now rewrite <- app_assoc.
    apply IH; [exact Hids | exact Hnd' |].
    apply Forall_app. split.
    + eapply Forall_impl; [|exact Hbefore]. intros a' Hnot Hin.
      apply Hnot. now right.
    + constructor; [|constructor]. now rewrite Ha.
Qed.

Lemma classify_all_mentionId apiKey llm mentions log :
  map mentionId (fst (classify_all apiKey llm mentions log)) = map id mentions.
Proof.
  rewrite classify_all_dispatch. cbn [fst].
  rewrite (Forall2_map_concat id mentionId (batches mentions) _
             (dispatch_mentionIds apiKey llm (batches mentions) log)).
  now rewrite concat_batches.
Qed.

(** X10. In an upload every review is stored with the result the
    classifier returned for it: the item for the i-th record carries the
    sentiment, the entity and the score (0 for a score of 0 or NaN) of the
    i-th result. *)
Theorem upload_items_aligned
  (apiKey : option string) (llm : nat -> outcome) (platform : qvalue)
  (clock : nat -> string) (rows : list RawRow) (log : list event) :
  let mentions := ingest platform clock rows in
  let analyses := fst (classify_all apiKey llm mentions log) in
  map (to_store analyses) mentions
  = map (fun ma => item_of (fst ma) (snd ma)) (combine mentions analyses).
Proof.
  intros mentions analyses.
  apply (to_store_aligned mentions [] analyses).
  - apply classify_all_mentionId.
  - apply ingest_ids_NoDup.
  - constructor.
Qed.

Lemma run_inserts_appends fault datetime_now items : forall k db,
  exists added,
    reviews (run_inserts fault datetime_now k items db) = reviews db ++ added
    /\ map item_of_row added = accepted fault k items
    /\ map Review.id added = seq (S (sqlite_sequence db)) (List.length added)
    /\ sqlite_sequence (run_inserts fault datetime_now k items db)
       = sqlite_sequence db + List.length added.
Proof.
  induction items as [|item rest IH]; intros k db; cbn [run_inserts accepted].
  - exists []. rewrite app_nil_r, Nat.add_0_r. repeat split.
  - unfold insert_run.
    destruct item as [[| platform | |] c d s e sc]; cbn [Item.platform];
      try apply IH.
    destruct (fault k); [apply IH|].
    match goal with |- context [run_inserts _ _ _ _ ?db'] =>
      destruct (IH (S k) db') as (added & Hr & Hi & Hid & Hs) end.
    cbn [reviews sqlite_sequence] in *.
    eexists (_ :: added). rewrite Hr, <- app_assoc. split; [reflexivity|].
    cbn [map List.length seq item_of_row Review.platform Review.content Review.date
           Review.sentiment Review.entity Review.score Review.id].
    rewrite Hi, Hid, Hs. repeat split. lia.
Qed.

(** X11. A transaction only adds rows, behind the rows of the table: one
    for each item whose insert succeeds, in the order of the items and with
    the next ids in a row. In a table whose ids are distinct and not above
    the counter they stay so. *)
Theorem transaction_appends
  (fault : nat -> bool) (datetime_now : string) (items : list Item.t)
  (db : database) :
  well_numbered db ->
  exists added,
    reviews (transaction fault datetime_now items db) = reviews db ++ added
    /\ map item_of_row added = accepted fault 0 items
    /\ map Review.id added = seq (S (sqlite_sequence db)) (List.length added)
    /\ well_numbered (transaction fault datetime_now items db).
Proof.
  intros [Hnd Hle]. unfold transaction.
  destruct (run_inserts_appends fault datetime_now items 0 db)
    as (added & Hr & Hi & Hid & Hs).
  exists added. repeat split; auto.
  - rewrite Hr, map_app, Hid. apply NoDup_app; [exact Hnd | apply seq_NoDup |].
    intros n (r & <- & Hin)%in_map_iff Hseq%in_seq.
    rewrite Forall_forall in Hle. specialize (Hle r Hin). lia.
  - rewrite Hr, Hs. apply Forall_app. split.
    + eapply Forall_impl; [|exact Hle]. cbv beta. lia.
    + apply Forall_forall. intros r Hin.
      assert (In (Review.id r) (map Review.id added)) as Hid' by now apply in_map.
      rewrite Hid in Hid'. apply in_seq in Hid'. lia.
Qed.

Lemma transaction_appends_witness :
  well_numbered Sample.eight_months
  /\ exists added,
       reviews (transaction Sample.second_fails "2025-09-20 08:00:05"
                  [item_with "positive" "Quality" 0.75 (Sample.review 1 "enak");
                   item_with "neutral" "General" 0.5 (Sample.review 2 "oke");
                   item_with "negative" "Service" 0.25 (Sample.review 3 "lelet")]
                  Sample.eight_months)
       = reviews Sample.eight_months ++ added
       /\ map Review.id added = [9; 10].
Proof.
  assert (H : well_numbered Sample.eight_months).
  { split; [|repeat constructor; simpl; lia].
    simpl. repeat constructor; simpl; intuition discriminate. }
  split; [exact H|].
  destruct (transaction_appends Sample.second_fails "2025-09-20 08:00:05"
              [item_with "positive" "Quality" 0.75 (Sample.review 1 "enak");
               item_with "neutral" "General" 0.5 (Sample.review 2 "oke");
               item_with "negative" "Service" 0.25 (Sample.review 3 "lelet")]
              Sample.eight_months H)
    as (added & Hr & Hi & Hid & _).
  exists added. split; [exact Hr|].
  apply (f_equal (@List.length Item.t)) in Hi. rewrite length_map in Hi.
  rewrite Hid, Hi. reflexivity.
Defined.

Lemma on_end_result apiKey llm fault datetime_now mentions db log :
  fst (on_end apiKey llm fault datetime_now mentions db log)
  = (mkResponse 200 (stored_message (List.length mentions)),
     transaction fault datetime_now
       (map (to_store (fst (classify_all apiKey llm mentions log))) mentions) db).
Proof.
  unfold on_end, bind, ret.
  destruct (classify_all apiKey llm mentions log) as [analyses log'].
  cbn [fst]. now rewrite length_map.
Qed.

Lemma ingest_source platform clock rows :
  Forall (fun m => source m = platform) (ingest platform clock rows).
Proof.
  rewrite ingest_flat_map. apply Forall_forall.
  intros m ((k & row) & _ & Hm)%in_flat_map. unfold kept_row, normalize_row in Hm.
  cbn [fst snd] in Hm. destruct (JsString.truthy (row_content row)); [|destruct Hm].
  now destruct Hm as [<-|[]].
Qed.

Lemma accepted_all fault items :
  (forall k, fault k = false) ->
  Forall (fun item => exists p, Item.platform item = QString p) items ->
  forall k, accepted fault k items = items.
Proof.
  intros Hfault. induction 1 as [|item items [p Hp] _ IH]; intros k;
    cbn [accepted]; [reflexivity|].
  now rewrite Hp, Hfault, IH.
Qed.

Lemma accepted_incl fault items : forall k item,
  In item (accepted fault k items) -> In item items.
Proof.
  induction items as [|x items IH]; intros k item; cbn [accepted]; [auto|].
  destruct (Item.platform x); try (intros H; right; now apply (IH (S k))).
  destruct (fault k); [intros H; right; now apply (IH (S k))|].
  intros [<-|H]; [now left | right; now apply (IH (S k))].
Qed.

Lemma platform_of_plain platform :
  plain_platform platform = true -> exists p, platform_of platform = QString p.
Proof.
  destruct platform as [|s| |]; try discriminate; intros _; simpl.
  - now exists "CSV".
  - destruct (JsString.truthy s); eauto.
Qed.

(** X12. When the platform parameter is absent or a string and no insert
    fails, an upload adds one row for each record, in the order of the
    records and with their contents and dates, and the number in its
    answer is the number of rows it added. *)
Theorem upload_csv_stores_all
  (apiKey : option string) (llm : nat -> outcome) (fault : nat -> bool)
  (datetime_now : string) (platform : qvalue) (clock : nat -> string)
  (rows : list RawRow) (db : database) (log : list event) :
  plain_platform platform = true ->
  (forall k, fault k = false) ->
  let mentions := ingest (platform_of platform) clock rows in
  let out := fst (upload_csv apiKey llm fault datetime_now platform clock rows db log) in
  exists added,
    reviews (snd out) = reviews db ++ added
    /\ map Review.content added = map content mentions
    /\ map Review.date added = map date mentions
    /\ fst out = mkResponse 200 (stored_message (List.length added)).
Proof.
  intros Hplain Hfault mentions out.
  unfold out, upload_csv. fold mentions. rewrite on_end_result. cbn [fst snd].
  set (items := map (to_store (fst (classify_all apiKey llm mentions log))) mentions).
  destruct (run_inserts_appends fault datetime_now items 0 db)
    as (added & Hr & Hi & _).
  assert (Hacc : accepted fault 0 items = items).
  { apply accepted_all; [exact Hfault|].
    destruct (platform_of_plain platform Hplain) as [p Hp].
    unfold items. apply Forall_map.
    eapply Forall_impl; [|apply ingest_source]. intros m Hm.
    exists p. cbn [to_store Item.platform]. now rewrite Hm. }
  rewrite Hacc in Hi.
  exists added. split; [exact Hr|].
  assert (Hlen : List.length added = List.length mentions).
  { rewrite <- (length_map item_of_row), Hi. unfold items. apply length_map. }
  split; [|split].
  - change Review.content with (fun r => Item.content (item_of_row r)).
    rewrite <- (map_map item_of_row Item.content), Hi. unfold items.
    rewrite map_map. reflexivity.
  - change Review.date with (fun r => Item.date (item_of_row r)).
    rewrite <- (map_map item_of_row Item.date), Hi. unfold items.
    rewrite map_map. reflexivity.
  - now rewrite Hlen.
Qed.

Lemma upload_csv_stores_all_witness :
  plain_platform (QString "Google Review") = true
  /\ (forall k, Sample.healthy k = false)
  /\ exists added,
       reviews (snd (fst (upload_csv (Some "key") Sample.careless Sample.healthy
                            "2025-09-20 08:00:05" (QString "Google Review")
                            Sample.clock Sample.rows Sample.eight_months [])))
       = reviews Sample.eight_months ++ added
       /\ map Review.content added
          = map content (ingest (platform_of (QString "Google Review")) Sample.clock
                           Sample.rows).
Proof.
  split; [reflexivity|]. split; [intros k; reflexivity|].
  destruct (upload_csv_stores_all (Some "key") Sample.careless Sample.healthy
              "2025-09-20 08:00:05" (QString "Google Review") Sample.clock
              Sample.rows Sample.eight_months [] eq_refl (fun k => eq_refl))
    as (added & Hr & Hc & _).
  exists added. split; [exact Hr | exact Hc].
Defined.

Lemma to_store_closed analyses m :
  In (Item.sentiment (to_store analyses m)) sentiment_names
  /\ Item.entity (to_store analyses m) <> "".
Proof.
  unfold to_store. cbn [Item.sentiment Item.entity].
  destruct (find_analysis analyses m) as [a|]; cbn [option_map or_else].
  - split.
    + destruct (sentiment a); simpl; auto.
    + destruct (JsString.truthy (entity a)) eqn:T; [|discriminate].
      now apply truthy_true_iff.
  - split; [simpl; auto | discriminate].
Qed.

(** X13. An upload keeps the table closed: when every row has one of the
    sentiments positive, neutral and negative and an entity that is not
    empty, so has every row after the upload, whatever the model answered
    and whichever inserts failed. *)
Theorem upload_csv_closed_rows
  (apiKey : option string) (llm : nat -> outcome) (fault : nat -> bool)
  (datetime_now : string) (platform : qvalue) (clock : nat -> string)
  (rows : list RawRow) (db : database) (log : list event) :
  closed_rows db ->
  closed_rows
    (snd (fst (upload_csv apiKey llm fault datetime_now platform clock rows db log))).
Proof.
  intros Hdb. unfold upload_csv. rewrite on_end_result. cbn [snd].
  match goal with |- closed_rows (transaction _ _ ?items _) =>
    destruct (run_inserts_appends fault datetime_now items 0 db)
      as (added & Hr & Hi & _) end.
  unfold closed_rows, transaction. rewrite Hr. apply Forall_app. split; [exact Hdb|].
  apply Forall_forall. intros r Hr'.
  assert (Hin : In (item_of_row r) (map item_of_row added)) by now apply in_map.
  rewrite Hi in Hin. apply accepted_incl in Hin.
  apply in_map_iff in Hin as (m & Hm & _).
  pose proof (to_store_closed
                (fst (classify_all apiKey llm
                        (ingest (platform_of platform) clock rows) log)) m) as Hc.
  rewrite Hm in Hc. exact Hc.
Qed.

Lemma upload_csv_closed_rows_witness :
  closed_rows Sample.eight_months
  /\ closed_rows
       (snd (fst (upload_csv (Some "key") Sample.off_range Sample.second_fails
                    "2025-09-20 08:00:05" (QString "Google Review") Sample.clock
                    Sample.rows Sample.eight_months []))).
Proof.
  assert (H : closed_rows Sample.eight_months).
  { repeat constructor; simpl; auto; discriminate. }
  split; [exact H|].
  exact (upload_csv_closed_rows (Some "key") Sample.off_range Sample.second_fails
           "2025-09-20 08:00:05" (QString "Google Review") Sample.clock
           Sample.rows Sample.eight_months [] H).
Defined.

(** ** The filtered listing and the summary *)

Lemma whereClause_name s : In s sentiment_names -> whereClause (QString s) = Some s.
Proof.
  intros [<-|[<-|[<-|[]]]]; reflexivity.
Qed.

(** X14. For one of the three sentiments as parameter the listing returns
    the stored rows of that sentiment and no other, each once, by date from
    the latest on; they are as many as the summary counts for it. *)
Theorem list_reviews_filtered (s : string) (db : database) :
  In s sentiment_names ->
  let answer := list_reviews (QString s) db in
  Permutation answer (filter (fun r => String.eqb (Review.sentiment r) s) (reviews db))
  /\ Sorted date_desc answer
  /\ Forall (fun r => Review.sentiment r = s) answer
  /\ List.length answer = count_sentiment s db.
Proof.
  intros Hs answer. unfold answer, list_reviews. rewrite (whereClause_name s Hs).
  assert (Hp := order_by_date_desc_perm
                  (filter (fun r => String.eqb (Review.sentiment r) s) (reviews db))).
  split; [exact Hp|]. split; [apply order_by_date_desc_sorted|]. split.
  - apply Forall_forall. intros r Hr.
    apply (Permutation_in _ Hp), filter_In in Hr as [_ Hr].
    now apply String.eqb_eq.
  - apply (Permutation_length Hp).
Qed.

Lemma list_reviews_filtered_witness :
  In "negative" sentiment_names
  /\ Forall (fun r => Review.sentiment r = "negative")
       (list_reviews (QString "negative") Sample.eight_months).
Proof.
  assert (H : In "negative" sentiment_names) by (simpl; auto).
  split; [exact H|].
  exact (proj1 (proj2 (proj2 (list_reviews_filtered "negative" Sample.eight_months H)))).
Defined.

Lemma closed_counts rows :
  Forall (fun r => In (Review.sentiment r) sentiment_names /\ Review.entity r <> "") rows ->
  List.length (filter (fun r => String.eqb (Review.sentiment r) "positive") rows)
  + List.length (filter (fun r => String.eqb (Review.sentiment r) "negative") rows)
  + List.length (filter (fun r => String.eqb (Review.sentiment r) "neutral") rows)
  = List.length rows.
Proof.
  induction 1 as [|r rows [Hr _] _ IH]; [reflexivity|]. cbn [filter].
  destruct Hr as [<-|[<-|[<-|[]]]]; cbn [String.eqb Ascii.eqb Bool.eqb];
    cbn [List.length]; lia.
Qed.

(** X15. In a table whose rows have one of the three sentiments, the three
    totals of the summary add up to the number of rows; and the summary of
    a table with no row names no last update. *)
Theorem summary_totals (strftime_iso : string -> option string) (db : database) :
  closed_rows db ->
  Summary.total_positive (summary strftime_iso db)
  + Summary.total_negative (summary strftime_iso db)
  + Summary.total_neutral (summary strftime_iso db)
  = List.length (reviews db)
  /\ (reviews db = [] -> Summary.last_updated (summary strftime_iso db) = None).
Proof.
  intros H. split.
  - apply (closed_counts _ H).
  - unfold summary. cbn [Summary.last_updated]. now intros ->.
Qed.

Lemma summary_totals_witness :
  closed_rows Sample.eight_months
  /\ Summary.total_positive (summary (fun _ => None) Sample.eight_months)
     + Summary.total_negative (summary (fun _ => None) Sample.eight_months)
     + Summary.total_neutral (summary (fun _ => None) Sample.eight_months)
     = List.length (reviews Sample.eight_months).
Proof.
  assert (H : closed_rows Sample.eight_months).
  { repeat constructor; simpl; auto; discriminate. }
  split; [exact H|].
  exact (proj1 (summary_totals (fun _ => None) Sample.eight_months H)).
Defined.

(** ** The topics *)

Lemma insert_by_total_perm t l : Permutation (insert_by_total t l) (t :: l).
Proof.
  induction l as [|x l IH]; simpl; [reflexivity|].
  destruct (Topic.total x <=? Topic.total t); [reflexivity|].
  rewrite IH. apply perm_swap.
Qed.

Lemma order_by_total_desc_perm rows : Permutation (order_by_total_desc rows) rows.
Proof.
  induction rows as [|t rows IH]; simpl; [constructor|].
  rewrite insert_by_total_perm. now constructor.
Qed.

Lemma insert_by_total_sorted t l :
  StronglySorted total_desc l -> StronglySorted total_desc (insert_by_total t l).
Proof.
  induction 1 as [|x l Hl IH Hx]; simpl; [repeat constructor|].
  destruct (Topic.total x <=? Topic.total t) eqn:E.
  - apply Nat.leb_le in E. constructor; [now constructor|].
    constructor; [exact E|].
    eapply Forall_impl; [|exact Hx]. unfold total_desc. intros y Hy. lia.
  - apply Nat.leb_gt in E. constructor; [exact IH|].
    apply Forall_forall. intros y Hy.
    apply (Permutation_in _ (insert_by_total_perm t l)) in Hy as [<-|Hy].
    + unfold total_desc. lia.
    + rewrite Forall_forall in Hx. now apply Hx.
Qed.

Lemma order_by_total_desc_sorted rows :
  StronglySorted total_desc (order_by_total_desc rows).
Proof.
  induction rows as [|t rows IH]; simpl;
    [constructor | now apply insert_by_total_sorted].
Qed.

Lemma StronglySorted_app {A} (R : A -> A -> Prop) l l' :
  StronglySorted R (l ++ l') ->
  StronglySorted R l /\ forall x y, In x l -> In y l' -> R x y.
Proof.
  induction l as [|a l IH]; simpl.
  - intros _. split; [constructor | intros x y []].
  - intros H. inversion H as [|? ? Hs Hall]; subst.
    destruct (IH Hs) as [Hl Hcross]. split.
    + constructor; [exact Hl|]. apply Forall_app in Hall. tauto.
    + intros x y [<-|Hx] Hy.
      * rewrite Forall_forall in Hall. apply Hall, in_or_app. now right.
      * now apply Hcross.
Qed.

Lemma topic_groups_entities rows :
  map Topic.entity (topic_groups rows) = nodup string_dec (map Review.entity rows).
Proof.
  unfold topic_groups. rewrite map_map. cbn [topic_row Topic.entity]. apply map_id.
Qed.

(** X16. The topics answer has five rows at most, with distinct entities,
    by total from the largest on; the row of an entity counts the stored
    reviews of that entity, of which there is one at least; and an entity
    of a stored review that is not in the answer has no more reviews than
    any entity that is. *)
Theorem topics_top_five (db : database) :
  let answer := topics db in
  List.length answer <= 5
  /\ StronglySorted total_desc answer
  /\ NoDup (map Topic.entity answer)
  /\ (forall t, In t answer ->
        t = topic_row (reviews db) (Topic.entity t)
        /\ 1 <= Topic.total t
        /\ Topic.total t
           = count_occ string_dec (map Review.entity (reviews db)) (Topic.entity t))
  /\ (forall r, In r (reviews db) ->
        (exists t, In t answer /\ Topic.entity t = Review.entity r)
        \/ (forall t, In t answer ->
              count_occ string_dec (map Review.entity (reviews db)) (Review.entity r)
              <= Topic.total t)).
Proof.
  intros answer. unfold answer, topics.
  set (full := order_by_total_desc (topic_groups (reviews db))).
  assert (Hperm : Permutation full (topic_groups (reviews db)))
    by apply order_by_total_desc_perm.
  assert (Hsorted : StronglySorted total_desc (firstn 5 full ++ skipn 5 full)).
  { rewrite firstn_skipn. apply order_by_total_desc_sorted. }
  destruct (StronglySorted_app _ _ _ Hsorted) as [Hfirst Hcross].
  assert (Hrow : forall t, In t full ->
            t = topic_row (reviews db) (Topic.entity t)
            /\ In (Topic.entity t) (map Review.entity (reviews db))).
  { intros t Ht. apply (Permutation_in _ Hperm) in Ht.
    unfold topic_groups in Ht. apply in_map_iff in Ht as (e & <- & He).
    apply nodup_In in He. now split. }
  assert (Htotal : forall e, Topic.total (topic_row (reviews db) e)
                     = count_occ string_dec (map Review.entity (reviews db)) e).
  { intros e. cbn [topic_row Topic.total]. apply filter_eqb_count. }
  assert (Hin_first : forall t, In t (firstn 5 full) -> In t full).
  { intros t Ht. rewrite <- (firstn_skipn 5 full). apply in_or_app. now left. }
  split; [apply firstn_le_length|]. split; [exact Hfirst|]. split; [|split].
  - assert (Hnd : NoDup (map Topic.entity full)).
    { apply (Permutation_NoDup (l := map Topic.entity (topic_groups (reviews db)))).
      - symmetry. now apply Permutation_map.
      - rewrite topic_groups_entities. apply NoDup_nodup. }
    rewrite <- (firstn_skipn 5 full), map_app in Hnd.
    now apply NoDup_app_remove_r in Hnd.
  - intros t Ht. destruct (Hrow t (Hin_first t Ht)) as [Et Hin].
    split; [exact Et|]. rewrite Et at 1 2. rewrite Htotal.
    split; [|reflexivity].
    now apply (count_occ_In string_dec).
  - intros r Hr.
    assert (Hfull : In (topic_row (reviews db) (Review.entity r)) full).
    { apply (Permutation_in _ (Permutation_sym Hperm)).
      unfold topic_groups. apply in_map, nodup_In. now apply in_map. }
    rewrite <- (firstn_skipn 5 full) in Hfull.
    apply in_app_or in Hfull as [Hf|Hs].
    + left. eexists. split; [exact Hf | reflexivity].
    + right. intros t Ht. specialize (Hcross t _ Ht Hs).
      unfold total_desc in Hcross. now rewrite Htotal in Hcross.
Qed.

Example topics_eight_months :
  map (fun t => (Topic.entity t, Topic.total t, Topic.positive t))
      (topics Sample.eight_months)
  = [("General", 8, 4)].
Proof. reflexivity. Qed.

(** ** Totals by sentiment, and the clearing *)

Lemma sum_when_closed group :
  Forall (fun r => In (Review.sentiment r) sentiment_names /\ Review.entity r <> "") group ->
  List.length group
  = sum_when "positive" group + sum_when "neutral" group + sum_when "negative" group.
Proof.
  unfold sum_when.
  induction 1 as [|r group [Hr _] _ IH]; [reflexivity|].
  cbn [map List.length]. change (list_sum (?x :: ?l)) with (x + list_sum l).
  destruct Hr as [E|[E|[E|[]]]]; rewrite <- E; simpl String.eqb; cbv iota; lia.
Qed.

Lemma sum_case_closed group :
  Forall (fun r => In (Review.sentiment r) sentiment_names /\ Review.entity r <> "") group ->
  List.length group
  = sum_case "positive" group + sum_case "neutral" group + sum_case "negative" group.
Proof. apply sum_when_closed. Qed.

Lemma Forall_filter_keeps {A} (P : A -> Prop) (f : A -> bool) l :
  Forall P l -> Forall P (filter f l).
Proof.
  rewrite !Forall_forall. intros H x [Hx _]%filter_In. now apply H.
Qed.

(** X17. In a table whose rows have one of the three sentiments, the total
    of every row of the topics answer and the count of every row of the
    trends answer is the sum of its positive, neutral and negative
    numbers. *)
Theorem sentiment_numbers_add_up
  (strftime_other : string -> option string) (today : nat * nat * nat)
  (db : database) :
  closed_rows db ->
  Forall (fun t => Topic.total t
                   = Topic.positive t + Topic.neutral t + Topic.negative t)
    (topics db)
  /\ Forall (fun g => Trend.count g
                      = Trend.positive g + Trend.neutral g + Trend.negative g)
       (trends strftime_other today db).
Proof.
  intros Hdb. split; apply Forall_forall.
  - intros t Ht. unfold topics in Ht.
    assert (Hfull : In t (order_by_total_desc (topic_groups (reviews db)))).
    { rewrite <- (firstn_skipn 5 (order_by_total_desc _)). apply in_or_app. now left. }
    apply (Permutation_in _ (order_by_total_desc_perm _)) in Hfull.
    unfold topic_groups in Hfull. apply in_map_iff in Hfull as (e & <- & _).
    cbn [topic_row Topic.total Topic.positive Topic.neutral Topic.negative].
    apply sum_when_closed, Forall_filter_keeps, Hdb.
  - intros g Hg. unfold trends in Hg. apply in_map_iff in Hg as (m & <- & _).
    cbn [group_row Trend.count Trend.positive Trend.neutral Trend.negative].
    apply sum_case_closed. now do 2 apply Forall_filter_keeps.
Qed.

Lemma sentiment_numbers_add_up_witness :
  closed_rows Sample.eight_months
  /\ Forall (fun t => Topic.total t
                      = Topic.positive t + Topic.neutral t + Topic.negative t)
       (topics Sample.eight_months).
Proof.
  assert (H : closed_rows Sample.eight_months).
  { repeat constructor; simpl; auto; discriminate. }
  split; [exact H|].
  exact (proj1 (sentiment_numbers_add_up (fun _ => None) (2025, 9, 15)
                  Sample.eight_months H)).
Defined.

(** X18. After the clearing every query answers with nothing: the listing,
    the topics and the trends are empty and the summary counts zero with no
    last update; and the rows of the next transaction are numbered from 1
    on. *)
Theorem clear_data_resets
  (strftime_iso strftime_other : string -> option string)
  (today : nat * nat * nat) (sentimentFilter : qvalue) (fault : nat -> bool)
  (datetime_now : string) (items : list Item.t) (db : database) :
  let cleared := clear_data db in
  list_reviews sentimentFilter cleared = []
  /\ topics cleared = []
  /\ trends strftime_other today cleared = []
  /\ summary strftime_iso cleared = Summary.mk 0 0 0 None
  /\ map Review.id (reviews (transaction fault datetime_now items cleared))
     = seq 1 (List.length (accepted fault 0 items)).
Proof.
  intros cleared. split; [|split; [|split; [|split]]]; try reflexivity.
  - unfold list_reviews. now destruct (whereClause sentimentFilter).
  - unfold transaction.
    destruct (run_inserts_appends fault datetime_now items 0 cleared)
      as (added & Hr & Hi & Hid & _).
    rewrite Hr. cbn [cleared clear_data reviews sqlite_sequence app] in *.
    now rewrite Hid, <- Hi, length_map.
Qed.

(** ** The sentiment of a result, and the date column of a row *)

(** X19. The sentiment of every result of [analyzeBatch] is neutral, or it
    is the one the answering element of the model's response names with
    one of the strings positive, negative and neutral; when the answering
    element names neither positive nor negative, it is neutral. *)
Theorem analyzeBatch_sentiment
  (apiKey : option string) (llm : nat -> outcome) (mentions : list Mention)
  (retryCount : nat) (log : list event) (r : SentimentAnalysis) :
  In r (fst (analyzeBatch apiKey llm mentions retryCount log)) ->
  (sentiment r = neutral
   \/ exists p,
        answered_by llm (snd (analyzeBatch apiKey llm mentions retryCount log))
          (mentionId r) p
        /\ prop p "sentiment" = Some (JStr (sentiment_text (sentiment r))))
  /\ ((forall p,
         answered_by llm (snd (analyzeBatch apiKey llm mentions retryCount log))
           (mentionId r) p ->
         prop p "sentiment" <> Some (JStr "positive")
         /\ prop p "sentiment" <> Some (JStr "negative")) ->
      sentiment r = neutral).
Proof.
  intros Hin.
  destruct (has_key apiKey) eqn:Hkey.
  - destruct (analyzeBatch_In _ _ _ _ _ _ Hkey Hin)
      as (m & _ & Hid & [->|(p & Hp & ->)]).
    + split; [left|]; reflexivity.
    + cbn [mentionId sentiment] in *.
      destruct (prop p "sentiment") as [[| | |s| |]|] eqn:E; cbn [normalizeSentiment];
        try (split; [left|]; reflexivity).
      destruct (String.eqb_spec s "positive") as [->|Hpos].
      { split; [right; exists p; auto|].
        intros H. now destruct (proj1 (H p Hp)). }
      destruct (String.eqb_spec s "negative") as [->|Hneg].
      { split; [right; exists p; auto|].
        intros H. now destruct (proj2 (H p Hp)). }
      split; [left|]; reflexivity.
  - rewrite analyzeBatch_step, Hkey in Hin. cbn [fst] in Hin.
    apply in_map_iff in Hin as (m & <- & _).
    split; [left|]; reflexivity.
Qed.

Lemma analyzeBatch_sentiment_witness :
  In Sample.off_result
    (fst (analyzeBatch (Some "key") Sample.off_range Sample.single 0 []))
  /\ (sentiment Sample.off_result = neutral
      \/ exists p,
           answered_by Sample.off_range
             (snd (analyzeBatch (Some "key") Sample.off_range Sample.single 0 []))
             (mentionId Sample.off_result) p
           /\ prop p "sentiment"
              = Some (JStr (sentiment_text (sentiment Sample.off_result)))).
Proof.
  assert (Hin : In Sample.off_result
                  (fst (analyzeBatch (Some "key") Sample.off_range Sample.single 0 [])))
    by (vm_compute; left; reflexivity).
  split; [exact Hin|].
  exact (proj1 (analyzeBatch_sentiment (Some "key") Sample.off_range
                  Sample.single 0 [] Sample.off_result Hin)).
Defined.

Lemma field_of_key k (row : RawRow) :
  In k (map fst row) -> exists v, field k row = Some v.
Proof.
  induction row as [|[k' v'] row IH]; simpl; [intros []|].
  destruct (String.eqb_spec k k') as [->|Hne]; [eauto|].
  intros [E|Hin]; [congruence | now apply IH].
Qed.

(** X20. The date of a record comes from the first date column of the row
    alone: it is the normalized value of that column, also when the value
    is empty, and neither a later date column nor the clock is used. *)
Theorem normalize_row_first_date_column
  (platform : qvalue) (nowISO : string) (rowCount : nat) (row : RawRow)
  (m : Mention) (k : string) :
  normalize_row platform nowISO rowCount row = Some m ->
  find is_date_key (map fst row) = Some k ->
  exists v, field k row = Some v
            /\ date m = normalizeDate v
            /\ (v = "" -> date m = "").
Proof.
  intros Hrow Hk. unfold normalize_row in Hrow.
  destruct (JsString.truthy (row_content row)); [|discriminate].
  injection Hrow as <-. cbn [date]. unfold rawDate. rewrite Hk.
  apply find_some in Hk as [Hin Hk]. rewrite (is_date_key_truthy _ Hk).
  destruct (field_of_key k row Hin) as [v Hv]. rewrite Hv.
  exists v. split; [reflexivity|]. split; [reflexivity|]. now intros ->.
Qed.

Lemma normalize_row_first_date_column_witness :
  normalize_row (QString "CSV") "2025-09-20T08:00:00.000Z" 1
    [("content", "oke"); ("Date", ""); ("created_at", "2025-09-15")]
  = Some (mkMention "csv-row-1" (QString "CSV") "oke" "")
  /\ find is_date_key
       (map fst [("content", "oke"); ("Date", ""); ("created_at", "2025-09-15")])
     = Some "Date"
  /\ exists v, field "Date" [("content", "oke"); ("Date", ""); ("created_at", "2025-09-15")]
               = Some v
               /\ date (mkMention "csv-row-1" (QString "CSV") "oke" "") = normalizeDate v
               /\ (v = "" -> date (mkMention "csv-row-1" (QString "CSV") "oke" "") = "").
Proof.
  split; [reflexivity|]. split; [reflexivity|].
  exact (normalize_row_first_date_column (QString "CSV") "2025-09-20T08:00:00.000Z" 1
           [("content", "oke"); ("Date", ""); ("created_at", "2025-09-15")]
           (mkMention "csv-row-1" (QString "CSV") "oke" "") "Date" eq_refl eq_refl).
Defined.
